(** * RPC over a serial link: link-layer framing and transport layer

    A shallow embedding of [src/link_layer.c] and [src/transport.c]:
    the CRC-8 routines, the frame encoder, the byte-at-a-time receive
    state machine, the function registry, the synchronous call API and
    the dispatch performed by the receiver task.

    Bytes ([uint8_t]) and 16-bit quantities ([uint16_t]) are integers of
    [Z] with their wrap-around written out; C arrays are lists indexed
    with stdpp's lookup and insert. *)

From Stdlib Require Import ZArith List Lia Bool.
From stdpp Require Import base list.
Import ListNotations.
Open Scope Z_scope.

(** ** Machine integers and C loops *)

Definition uint8 (z : Z) : Z := z mod 256.
Definition uint16 (z : Z) : Z := z mod 65536.

(** [for (i = start; i < start + n; i++) s = body i s;] *)
Fixpoint for_loop {S : Type} (n : nat) (i : nat) (body : nat -> S -> S) (s : S) : S :=
  match n with
  | O => s
  | Datatypes.S n' => for_loop n' (Datatypes.S i) body (body i s)
  end.

(** Reading [a[i]] from a C array; the model reads 0 outside the array. *)
Definition rd (a : list Z) (i : nat) : Z := default 0 (a !! i).

(** A pointer argument is [None] when it is NULL. *)
Definition is_null {A : Type} (p : option A) : bool :=
  match p with
  | None => true
  | Some _ => false
  end.

(** ** Link layer ([src/link_layer.c], [include/link_layer.h]) *)

Module Link.

Definition LINK_START_BYTE : Z := 0xFA.
Definition LINK_DATA_START_BYTE : Z := 0xFB.
Definition LINK_STOP_BYTE : Z := 0xFE.

(** One round of the inner loop shared by both CRC routines:
    [crc = (crc & 0x80) ? (uint8_t)((crc << 1) ^ 0x07) : (uint8_t)(crc << 1);] *)
Definition crc8_shift (crc : Z) : Z :=
  if negb (Z.land crc 0x80 =? 0)
  then uint8 (Z.lxor (Z.shiftl crc 1) 0x07)
  else uint8 (Z.shiftl crc 1).

(** [crc8_calc]: the block CRC, an outer loop over the bytes and an
    inner loop of eight shift steps. *)
Definition crc8_calc (data : list Z) (length : nat) : Z :=
  for_loop length 0%nat
    (fun i crc =>
       let crc := uint8 (Z.lxor crc (rd data i)) in
       for_loop 8 0%nat (fun _ crc => crc8_shift crc) crc)
    0.

(** [crc8_update]: one byte folded into a running CRC. *)
Definition crc8_update (crc : Z) (byte : Z) : Z :=
  let crc := uint8 (Z.lxor crc byte) in
  for_loop 8 0%nat (fun _ crc => crc8_shift crc) crc.

(** The bytes [link_send_frame] assembles in [frame] for a payload and
    its declared length. *)
Definition frame_header (length : Z) : list Z :=
  [LINK_START_BYTE; uint8 (Z.land length 0xFF);
   uint8 (Z.land (Z.shiftr length 8) 0xFF)].

Definition build_frame (payload : list Z) (length : Z) : list Z :=
  let hdr := frame_header length in
  let hdr_crc := crc8_calc hdr 3 in
  let body := hdr ++ [hdr_crc; LINK_DATA_START_BYTE]
                  ++ take (Z.to_nat length) payload in
  let full_crc :=
    for_loop (Z.to_nat (length + 5)) 0%nat
      (fun i full_crc => crc8_update full_crc (rd body i)) 0 in
  body ++ [full_crc; LINK_STOP_BYTE].

(** States of the receive state machine. *)
Inductive rx_state :=
| ST_WAIT_START | ST_LEN_LOW | ST_LEN_HIGH | ST_HDR_CRC
| ST_DATA_START | ST_PAYLOAD | ST_FULL_CRC | ST_STOP.

(** The locals of [link_receive_frame] together with the caller's buffer. *)
Record rx_locals := mk_rx {
  l_state : rx_state;
  l_length : Z;
  l_idx : Z;
  l_hdr : list Z;
  l_full_crc_calc : Z;
  l_buffer : list Z
}.

Definition rx_init (buffer : list Z) : rx_locals :=
  mk_rx ST_WAIT_START 0 0 [0; 0; 0] 0 buffer.

Inductive rx_outcome :=
| Continue (s : rx_locals)
| Return0 (out_len : Z) (buffer : list Z).

(** The body of the [switch (state)] for one received byte. *)
Definition rx_step (buffer_size : Z) (s : rx_locals) (byte : Z) : rx_outcome :=
  let '(mk_rx state length idx hdr full_crc_calc buffer) := s in
  match state with
  | ST_WAIT_START =>
      if byte =? LINK_START_BYTE
      then Continue (mk_rx ST_LEN_LOW length idx (<[0%nat:=byte]> hdr)
                           (crc8_update 0 byte) buffer)
      else Continue s
  | ST_LEN_LOW =>
      Continue (mk_rx ST_LEN_HIGH (uint16 byte) idx (<[1%nat:=byte]> hdr)
                      (crc8_update full_crc_calc byte) buffer)
  | ST_LEN_HIGH =>
      Continue (mk_rx ST_HDR_CRC
                      (uint16 (Z.lor length (Z.shiftl (uint16 byte) 8)))
                      idx (<[2%nat:=byte]> hdr)
                      (crc8_update full_crc_calc byte) buffer)
  | ST_HDR_CRC =>
      if negb (crc8_calc hdr 3 =? byte)
      then Continue (mk_rx ST_WAIT_START length idx hdr full_crc_calc buffer)
      else Continue (mk_rx ST_DATA_START length idx hdr
                           (crc8_update full_crc_calc byte) buffer)
  | ST_DATA_START =>
      if byte =? LINK_DATA_START_BYTE
      then Continue (mk_rx (if length =? 0 then ST_FULL_CRC else ST_PAYLOAD)
                           length 0 hdr (crc8_update full_crc_calc byte) buffer)
      else Continue (mk_rx ST_WAIT_START length idx hdr full_crc_calc buffer)
  | ST_PAYLOAD =>
      if idx <? length
      then
        let buffer := if idx <? buffer_size
                      then <[Z.to_nat idx:=byte]> buffer else buffer in
        let idx := uint16 (idx + 1) in
        Continue (mk_rx (if idx >=? length then ST_FULL_CRC else ST_PAYLOAD)
                        length idx hdr (crc8_update full_crc_calc byte) buffer)
      else Continue s
  | ST_FULL_CRC =>
      if (length <=? buffer_size) && (full_crc_calc =? byte)
      then Continue (mk_rx ST_STOP length idx hdr full_crc_calc buffer)
      else Continue (mk_rx ST_WAIT_START length idx hdr full_crc_calc buffer)
  | ST_STOP =>
      if byte =? LINK_STOP_BYTE
      then Return0 length buffer
      else Continue (mk_rx ST_WAIT_START length idx hdr full_crc_calc buffer)
  end.

(** Result of running the receive loop over the bytes the source has:
    either a frame was returned (what is left of the input comes with
    it), or the source ran dry and [physical_receive_byte] failed. *)
Inductive rx_result :=
| RxFrame (out_len : Z) (buffer : list Z) (rest : list Z)
| RxFail (s : rx_locals).

(** The [for (;;)] loop of [link_receive_frame]. *)
Fixpoint rx_loop (buffer_size : Z) (s : rx_locals) (input : list Z) : rx_result :=
  match input with
  | [] => RxFail s
  | byte :: input' =>
      match rx_step buffer_size s byte with
      | Continue s' => rx_loop buffer_size s' input'
      | Return0 out_len buffer => RxFrame out_len buffer input'
      end
  end.

(** The state the machine is in after consuming a run of bytes, when no
    frame was returned on the way. *)
Fixpoint rx_steps (buffer_size : Z) (s : rx_locals) (input : list Z) : option rx_locals :=
  match input with
  | [] => Some s
  | byte :: input' =>
      match rx_step buffer_size s byte with
      | Continue s' => rx_steps buffer_size s' input'
      | Return0 _ _ => None
      end
  end.

End Link.

(** ** The world the two layers run in

    The globals of [transport.c] and [physical.c], the heap and the UART
    are one explicit state.  [heap] lists the outcomes of the coming
    [pvPortMalloc] calls ([false]: the allocation returns NULL; an
    exhausted list: every further allocation succeeds).  [trace] records
    the calls that cross a layer boundary, in order. *)

(** [rpc_callback_t]: from [args] (NULL when [args_len] is 0) and
    [args_len] to the final values of [*resp_data], [*resp_len] and
    [*error_code]. *)
Definition rpc_callback_t : Type :=
  option (list Z) -> Z -> option (list Z) * Z * Z.

(** [rpc_entry_t]; [name] is the registry's own NUL-terminated copy. *)
Record rpc_entry_t := mk_entry {
  entry_name : list Z;
  entry_callback : rpc_callback_t
}.

Inductive event :=
| EvLinkSend (payload : option (list Z)) (length : Z)
| EvCallback (entry : nat) (args : option (list Z)) (args_len : Z).

Record world := mk_world {
  heap : list bool;
  s_uart_installed : bool;
  uart_tx : list Z;
  uart_rx : list Z;
  (* transport.c: the used slots of function_registry; registry_count is
     their number *)
  function_registry : list rpc_entry_t;
  current_counter : Z;
  (* NULL, or a queue of capacity 1 holding response envelopes *)
  pending_queue : option (list (list Z));
  (* the receiver task's locals, which live as long as the task *)
  rx_buffer : list Z;
  rx_len : Z;
  trace : list event
}.

Definition registry_count (w : world) : Z :=
  Z.of_nat (length (function_registry w)).

Definition set_heap (h : list bool) (w : world) : world :=
  mk_world h (s_uart_installed w) (uart_tx w) (uart_rx w)
    (function_registry w) (current_counter w) (pending_queue w)
    (rx_buffer w) (rx_len w) (trace w).
Definition set_uart_tx (tx : list Z) (w : world) : world :=
  mk_world (heap w) (s_uart_installed w) tx (uart_rx w)
    (function_registry w) (current_counter w) (pending_queue w)
    (rx_buffer w) (rx_len w) (trace w).
Definition set_uart_rx (rx : list Z) (w : world) : world :=
  mk_world (heap w) (s_uart_installed w) (uart_tx w) rx
    (function_registry w) (current_counter w) (pending_queue w)
    (rx_buffer w) (rx_len w) (trace w).
Definition set_function_registry (r : list rpc_entry_t) (w : world) : world :=
  mk_world (heap w) (s_uart_installed w) (uart_tx w) (uart_rx w)
    r (current_counter w) (pending_queue w)
    (rx_buffer w) (rx_len w) (trace w).
Definition set_current_counter (c : Z) (w : world) : world :=
  mk_world (heap w) (s_uart_installed w) (uart_tx w) (uart_rx w)
    (function_registry w) c (pending_queue w)
    (rx_buffer w) (rx_len w) (trace w).
Definition set_pending_queue (q : option (list (list Z))) (w : world) : world :=
  mk_world (heap w) (s_uart_installed w) (uart_tx w) (uart_rx w)
    (function_registry w) (current_counter w) q
    (rx_buffer w) (rx_len w) (trace w).
Definition set_rx (buf : list Z) (len : Z) (w : world) : world :=
  mk_world (heap w) (s_uart_installed w) (uart_tx w) (uart_rx w)
    (function_registry w) (current_counter w) (pending_queue w)
    buf len (trace w).
Definition set_trace (t : list event) (w : world) : world :=
  mk_world (heap w) (s_uart_installed w) (uart_tx w) (uart_rx w)
    (function_registry w) (current_counter w) (pending_queue w)
    (rx_buffer w) (rx_len w) t.

(** State monad over the world. *)
Definition M (A : Type) : Type := world -> A * world.
Definition ret {A : Type} (a : A) : M A := fun w => (a, w).
Definition bind {A B : Type} (m : M A) (k : A -> M B) : M B :=
  fun w => let (a, w') := m w in k a w'.
Definition get {A : Type} (f : world -> A) : M A := fun w => (f w, w).
Definition modify (f : world -> world) : M unit := fun w => (tt, f w).

Notation "'let*' x ':=' m 'in' k" := (bind m (fun x => k))
  (at level 10, x name, m at level 100, k at level 200).
Notation "m '>>' k" := (bind m (fun _ => k))
  (at level 90, right associativity).

(** [pvPortMalloc]: [true] when the allocation succeeds. *)
Definition pvPortMalloc : M bool :=
  fun w => match heap w with
           | [] => (true, w)
           | ok :: h => (ok, set_heap h w)
           end.

Definition log (e : event) : M unit :=
  modify (fun w => set_trace (trace w ++ [e]) w).

(** [physical_send]: the driver's blocking write accepts all [len]
    bytes. *)
Definition physical_send (data : list Z) (len : Z) : M Z :=
  let* installed := get s_uart_installed in
  if negb installed then ret (-1)
  else modify (fun w => set_uart_tx (uart_tx w ++ take (Z.to_nat len) data) w)
       >> ret len.

(** [link_send_frame]; each entry is recorded in [trace]. *)
Definition link_send_frame (payload : option (list Z)) (length : Z) : M Z :=
  log (EvLinkSend payload length) >>
  if is_null payload && (length >? 0) then ret (-1)
  else
    let frame_len := length + 7 in
    let* frame := pvPortMalloc in
    if negb frame then ret (-2)
    else
      let* written :=
        physical_send (Link.build_frame (default [] payload) length) frame_len in
      ret (if written =? frame_len then 0 else -3).

(** [link_receive_frame] for a non-NULL [buffer] and [out_len]: the
    return code, the buffer and [*out_len] afterwards.  The byte source
    fails when the UART is not installed or has no more bytes. *)
Definition link_receive_frame (buffer : list Z) (buffer_size : Z) (out_len : Z)
  : M (Z * list Z * Z) :=
  fun w =>
    let input := if s_uart_installed w then uart_rx w else [] in
    match Link.rx_loop buffer_size (Link.rx_init buffer) input with
    | Link.RxFrame len buf rest => ((0, buf, len), set_uart_rx rest w)
    | Link.RxFail s =>
        ((-2, Link.l_buffer s, out_len),
         if s_uart_installed w then set_uart_rx [] w else w)
    end.

(** ** Transport layer ([src/transport.c], [include/transport.h]) *)

Definition MSG_TYPE_REQUEST : Z := 0x0B.
Definition MSG_TYPE_RESPONSE : Z := 0x16.
Definition MSG_TYPE_ERROR : Z := 0x21.
Definition ERR_FUNC_NOT_FOUND : Z := 1.
Definition ERR_INTERNAL : Z := 2.
Definition MAX_FUNCTIONS : Z := 8.

(** C strings: a [char *] is the list of bytes it points at; a list
    without a NUL reads as terminated at its end. *)
Fixpoint strlen (s : list Z) : nat :=
  match s with
  | [] => O
  | c :: s' => if c =? 0 then O else S (strlen s')
  end.

Fixpoint strncmp (s1 s2 : list Z) (n : nat) : Z :=
  match n with
  | O => 0
  | S n' =>
      let c1 := rd s1 0 in
      let c2 := rd s2 0 in
      if c1 =? c2
      then if c1 =? 0 then 0 else strncmp (tail s1) (tail s2) n'
      else c1 - c2
  end.

(** [transport_register_function]; [None] is a NULL argument. *)
Definition transport_register_function
    (name : option (list Z)) (callback : option rpc_callback_t) : M Z :=
  match name, callback with
  | Some name, Some callback =>
      let* count := get registry_count in
      if count >=? MAX_FUNCTIONS then ret (-2)
      else
        let nlen := strlen name in
        let* copy := pvPortMalloc in
        if negb copy then ret (-3)
        else
          modify (fun w =>
            set_function_registry
              (function_registry w ++ [mk_entry (take nlen name ++ [0]) callback]) w)
          >> ret 0
  | _, _ => ret (-1)
  end.

(** The test of the loop body of [find_function]. *)
Definition entry_matches (e : rpc_entry_t) (name : list Z) (name_len : Z) : bool :=
  (Z.of_nat (strlen (entry_name e)) =? name_len)
  && (strncmp (entry_name e) name (Z.to_nat name_len) =? 0).

(** [find_function]: the scan from slot [i] on; the result is the index
    of the slot whose address the C function returns. *)
Fixpoint find_function_from (registry : list rpc_entry_t) (i : nat)
    (name : list Z) (name_len : Z) : option nat :=
  match registry with
  | [] => None
  | e :: registry' =>
      if entry_matches e name name_len then Some i
      else find_function_from registry' (S i) name name_len
  end.

Definition find_function (name : list Z) (name_len : Z) : M (option nat) :=
  let* registry := get function_registry in
  ret (find_function_from registry 0 name name_len).

(** [send_error_response]. *)
Definition send_error_response (counter error_code : Z) : M unit :=
  let payload := [MSG_TYPE_ERROR; counter; error_code] in
  link_send_frame (Some payload) 3 >> ret tt.

(** [send_response]; memory the code leaves unwritten reads as 0. *)
Definition send_response (counter : Z) (data : option (list Z)) (len : Z) : M unit :=
  let* payload := pvPortMalloc in
  if negb payload then send_error_response counter ERR_INTERNAL
  else
    let body :=
      match data with
      | Some d => if len >? 0 then take (Z.to_nat len) d
                  else replicate (Z.to_nat len) 0
      | None => replicate (Z.to_nat len) 0
      end in
    link_send_frame (Some ([MSG_TYPE_RESPONSE; counter] ++ body)) (uint16 (2 + len))
    >> ret tt.

(** [while (i < rx_len && rx_buffer[i] != 0x00) i++;] *)
Fixpoint scan_name (fuel : nat) (buf : list Z) (len : Z) (i : Z) : Z :=
  match fuel with
  | O => i
  | S fuel' =>
      if (i <? len) && negb (rd buf (Z.to_nat i) =? 0)
      then scan_name fuel' buf len (uint16 (i + 1))
      else i
  end.

(** [xQueueSend(pending_queue, &copy, 0)] on the queue of capacity 1. *)
Definition xQueueSend (q : list (list Z)) (item : list Z) : list (list Z) :=
  if (length q <? 1)%nat then q ++ [item] else q.

(** The [switch (type)] of [transport_receiver_task] for the frame in
    [rx_buffer], [rx_len] bytes long. *)
Definition receiver_dispatch : M unit :=
  let* rx_buffer := get rx_buffer in
  let* rx_len := get rx_len in
  let type := rd rx_buffer 0 in
  let counter := rd rx_buffer 1 in
  if type =? MSG_TYPE_REQUEST then
    if rx_len <? 3 then send_error_response counter ERR_INTERNAL
    else
      let i := scan_name (Z.to_nat rx_len) rx_buffer rx_len 2 in
      if i >=? rx_len then send_error_response counter ERR_INTERNAL
      else
        let name_len := uint8 (i - 2) in
        let name := drop 2 rx_buffer in
        let args_offset := uint16 (i + 1) in
        let args_len :=
          if args_offset <=? rx_len then uint16 (rx_len - args_offset) else 0 in
        let args :=
          if args_len >? 0
          then Some (take (Z.to_nat args_len) (drop (Z.to_nat args_offset) rx_buffer))
          else None in
        let* entry := find_function name name_len in
        match entry with
        | None => send_error_response counter ERR_FUNC_NOT_FOUND
        | Some k =>
            let* registry := get function_registry in
            match registry !! k with
            | None => ret tt
            | Some e =>
                log (EvCallback k args args_len) >>
                let '(resp_data, resp_len, err_code) := entry_callback e args args_len in
                if negb (err_code =? 0) then send_error_response counter err_code
                else send_response counter resp_data resp_len
            end
        end
  else if (type =? MSG_TYPE_RESPONSE) || (type =? MSG_TYPE_ERROR) then
    let* pending := get pending_queue in
    let* current := get current_counter in
    match pending with
    | Some q =>
        if counter =? current then
          let err :=
            if type =? MSG_TYPE_ERROR
            then (if rx_len >=? 3 then rd rx_buffer 2 else ERR_INTERNAL)
            else 0 in
          let payload_len :=
            if type =? MSG_TYPE_ERROR then 0
            else (if rx_len >=? 2 then uint16 (rx_len - 2) else 0) in
          let* copy := pvPortMalloc in
          if copy then
            let data :=
              if (type =? MSG_TYPE_RESPONSE) && (payload_len >? 0)
              then take (Z.to_nat payload_len) (drop 2 rx_buffer)
              else replicate (Z.to_nat payload_len) 0 in
            let envelope :=
              [uint8 (Z.land payload_len 0xFF);
               uint8 (Z.land (Z.shiftr payload_len 8) 0xFF);
               err] ++ data in
            modify (set_pending_queue (Some (xQueueSend q envelope)))
          else ret tt
        else ret tt
    | None => ret tt
    end
  else ret tt.

(** One turn of the [for (;;)] loop of [transport_receiver_task]. *)
Definition transport_receiver_iteration : M unit :=
  let* buf := get rx_buffer in
  let* len := get rx_len in
  let* r := link_receive_frame buf 256 len in
  let '(rc, buf', len') := r in
  modify (set_rx buf' len') >>
  if negb (rc =? 0) then ret tt
  else if len' <? 2 then ret tt
  else receiver_dispatch.

(** [n] turns of the receiver task. *)
Fixpoint transport_receiver_task (n : nat) : M unit :=
  match n with
  | O => ret tt
  | S n' => transport_receiver_iteration >> transport_receiver_task n'
  end.

(** The out-parameters of [transport_call]: what [*response],
    [*resp_len] and [*error_code] hold. *)
Record call_outs := mk_outs {
  response : option (list Z);
  resp_len : Z;
  error_code : Z
}.

(** [xQueueReceive(pending_queue, &resp_ptr, ticks)]: the item at the
    head of the queue when there is one, a timeout otherwise. *)
Definition xQueueReceive : M (option (list Z)) :=
  fun w =>
    match pending_queue w with
    | Some (item :: q) => (Some item, set_pending_queue (Some q) w)
    | _ => (None, w)
    end.

(** [vQueueDelete(pending_queue); pending_queue = NULL;] *)
Definition clear_pending : M unit := modify (set_pending_queue None).

(** [transport_call], first part: from entry to the release of the mutex
    before the wait.  [inl rc] is an early return, [inr tt] means the
    request is on the wire.  The critical sections under [pending_mutex]
    are single steps of the model, so taking the mutex always succeeds
    and the return of -2 does not arise.  The out-parameters are the
    record [call_outs] and are never NULL; [name] and [args] may be.
    The request block is [resize payload_len 0 written]: this is what
    the C code leaves in it as long as [2 + name_len + 1 + args_len]
    is at most 65535.  Beyond that [payload_len] wraps and the code
    writes past the block it has allocated, which this definition does
    not model. *)
Definition transport_call_send
    (name : option (list Z)) (args : option (list Z)) (args_len : Z)
  : M (Z + unit) :=
  match name with
  | None => ret (inl (-1))
  | Some name =>
      let* pending := get pending_queue in
      if negb (is_null pending) then ret (inl (-3))
      else
        let* queue := pvPortMalloc in
        if negb queue then ret (inl (-4))
        else
          modify (set_pending_queue (Some [])) >>
          modify (fun w => set_current_counter (uint8 (current_counter w + 1)) w) >>
          let* counter := get current_counter in
          let name_len := uint8 (Z.of_nat (strlen name)) in
          let payload_len := uint16 (2 + name_len + 1 + args_len) in
          let* payload := pvPortMalloc in
          if negb payload then clear_pending >> ret (inl (-5))
          else
            let arg_bytes :=
              match args with
              | Some a => if args_len >? 0 then take (Z.to_nat args_len) a else []
              | None => []
              end in
            let written :=
              [MSG_TYPE_REQUEST; counter] ++ take (Z.to_nat name_len) name
                ++ [0] ++ arg_bytes in
            let* rc := link_send_frame
                         (Some (resize (Z.to_nat payload_len) 0 written))
                         payload_len in
            if negb (rc =? 0) then clear_pending >> ret (inl (-6))
            else ret (inr tt)
  end.

(** [transport_call], second part: from [xQueueReceive] to the return. *)
Definition transport_call_wait (outs : call_outs) : M (Z * call_outs) :=
  let* resp_ptr := xQueueReceive in
  match resp_ptr with
  | None => clear_pending >> ret (-7, outs)
  | Some resp_buf =>
      let datalen :=
        uint16 (Z.lor (rd resp_buf 0) (Z.shiftl (rd resp_buf 1) 8)) in
      let error_code := rd resp_buf 2 in
      if error_code =? 0 then
        if datalen >? 0 then
          let* copy := pvPortMalloc in
          if copy then
            clear_pending >>
            ret (0, mk_outs (Some (take (Z.to_nat datalen) (drop 3 resp_buf)))
                            datalen error_code)
          else ret (-8, mk_outs None datalen error_code)
        else clear_pending >> ret (0, mk_outs None datalen error_code)
      else clear_pending >> ret (0, mk_outs None 0 error_code)
  end.

(** [transport_call].  While the caller is blocked in [xQueueReceive]
    the receiver task runs; [rx_progress] is the number of turns of its
    loop that complete before the caller's wait ends. *)
Definition transport_call
    (name : option (list Z)) (args : option (list Z)) (args_len : Z)
    (outs : call_outs) (rx_progress : nat) : M (Z * call_outs) :=
  let* sent := transport_call_send name args args_len in
  match sent with
  | inl rc => ret (rc, outs)
  | inr _ => transport_receiver_task rx_progress >> transport_call_wait outs
  end.

(** A freshly started system: UART installed, empty registry, no call
    pending, every allocation succeeds. *)
Definition world_init : world :=
  mk_world [] true [] [] [] 0 None (replicate 256 0) 0 [].

(** ** Auxiliary definitions for the statements below *)

(** What the payload state leaves in the buffer after consuming [bytes]
    from index [idx] on: the stores of [buffer[idx] = byte], guarded by
    [idx < buffer_size]. *)
Fixpoint store_payload (buffer_size idx : Z) (bytes buffer : list Z) : list Z :=
  match bytes with
  | [] => buffer
  | b :: bytes' =>
      store_payload buffer_size (idx + 1) bytes'
        (if idx <? buffer_size then <[Z.to_nat idx:=b]> buffer else buffer)
  end.

(** ** Frames on the wire *)

(** Everything of a frame before its full CRC. *)
Definition frame_body_of (P : list Z) : list Z :=
  let L := Z.of_nat (length P) in
  Link.frame_header L
    ++ [Link.crc8_calc (Link.frame_header L) 3; Link.LINK_DATA_START_BYTE] ++ P.

(** The characters of a C string, without its terminator. *)
Definition c_string (s : list Z) : list Z := take (strlen s) s.

(** The world of the failing call: the response to call 1 is on its way
    in, and the fifth allocation (the caller's copy of the result) fails
    after the queue, the request payload, the frame and the envelope were
    allocated. *)
Definition w_alloc_failure : world :=
  mk_world [true; true; true; true; false] true []
    (Link.build_frame [MSG_TYPE_RESPONSE; 1; 0x33] 3) [] 0 None
    (replicate 256 0) 0 [].

Definition call_sum (w : world) : Z * call_outs * world :=
  transport_call (Some [0x73; 0x75; 0x6D; 0]) (Some [1; 0; 0; 0; 2; 0; 0; 0]) 8
    (mk_outs None 0 0) 1 w.

(** ** Auxiliary definitions for the further properties *)

(** What every state of the machine satisfies: the declared length is a
    16-bit value, the header array keeps its three bytes, and the stop
    marker is awaited only for a length that fits the buffer. *)
Definition rx_inv (bs : Z) (s : Link.rx_locals) : Prop :=
  0 <= Link.l_length s < 65536
  /\ length (Link.l_hdr s) = 3%nat
  /\ (Link.l_state s = Link.ST_STOP -> Link.l_length s <= bs).

Definition is_byte (b : Z) : Prop := 0 <= b < 256.

(** The eight shift steps of one CRC round. *)
Definition crc8_round (x : Z) : Z :=
  for_loop 8 0%nat (fun _ crc => Link.crc8_shift crc) x.

(** The world after the first part of an admitted call. *)
Definition after_request (w : world) (name a : list Z) : world :=
  let counter := uint8 (current_counter w + 1) in
  let payload := MSG_TYPE_REQUEST :: counter :: c_string name ++ 0 :: a in
  set_uart_tx (uart_tx w ++ Link.build_frame payload (Z.of_nat (length payload)))
    (set_trace (trace w ++ [EvLinkSend (Some payload) (Z.of_nat (length payload))])
       (set_current_counter counter (set_pending_queue (Some []) w))).

(** The envelope the receiver task builds for a reply. *)
Definition envelope (err : Z) (data : list Z) : list Z :=
  [uint8 (Z.land (Z.of_nat (length data)) 0xFF);
   uint8 (Z.land (Z.shiftr (Z.of_nat (length data)) 8) 0xFF);
   err] ++ data.

(** What the dispatch does with the result of a callback. *)
Definition answer (counter : Z) (result : option (list Z) * Z * Z) : M unit :=
  let '(resp_data, resp_len, err_code) := result in
  if negb (err_code =? 0) then send_error_response counter err_code
  else send_response counter resp_data resp_len.

(** ** Example functions ([src/rpc_app.c]) *)

Definition uint32 (z : Z) : Z := z mod 4294967296.

(** [rpc_echo]: a copy of the arguments with a NUL appended; the
    reported length leaves the NUL out.  Bytes the code does not write
    read as 0. *)
Definition rpc_echo (args : option (list Z)) (args_len : Z)
  : M (option (list Z) * Z * Z) :=
  let* buf := pvPortMalloc in
  if negb buf then ret (None, 0, ERR_INTERNAL)
  else
    let copied :=
      match args with
      | Some a => if args_len >? 0 then take (Z.to_nat args_len) a
                  else replicate (Z.to_nat args_len) 0
      | None => replicate (Z.to_nat args_len) 0
      end in
    ret (Some (copied ++ [0]), args_len, 0).

(** [rpc_sum].  [snprintf_lu] stands for the C library's
    [snprintf(tmp, sizeof tmp, "%lu", x)]: the characters it produces
    for [x]. *)
Definition rpc_sum (snprintf_lu : Z -> list Z)
    (args : option (list Z)) (args_len : Z) : M (option (list Z) * Z * Z) :=
  match args with
  | None => ret (None, 0, ERR_INTERNAL)
  | Some p =>
      if negb (args_len =? 8) then ret (None, 0, ERR_INTERNAL)
      else
        let a := uint32 (Z.lor (Z.lor (Z.lor (rd p 0) (Z.shiftl (rd p 1) 8))
                                      (Z.shiftl (rd p 2) 16))
                               (Z.shiftl (rd p 3) 24)) in
        let b := uint32 (Z.lor (Z.lor (Z.lor (rd p 4) (Z.shiftl (rd p 5) 8))
                                      (Z.shiftl (rd p 6) 16))
                               (Z.shiftl (rd p 7) 24)) in
        let result := uint32 (a + b) in
        let tmp := snprintf_lu result in
        let written := Z.of_nat (length tmp) in
        if written <=? 0 then ret (None, 0, ERR_INTERNAL)
        else
          let* buf := pvPortMalloc in
          if negb buf then ret (None, 0, ERR_INTERNAL)
          else ret (Some (tmp ++ [0]), uint16 written, 0)
  end.

(** The four bytes of a 32-bit value, lowest first, as the caller of
    [sum] lays them out. *)
Definition le32 (x : Z) : list Z :=
  [x mod 256; (x / 256) mod 256; (x / 65536) mod 256; (x / 16777216) mod 256].

(** * Properties *)

(** ** Loops and machine arithmetic *)

Section Loops.
Context {S : Type}.

Lemma for_loop_last (n i : nat) (body : nat -> S -> S) (s : S) :
  for_loop (Datatypes.S n) i body s = body (i + n)%nat (for_loop n i body s).
Proof.
  revert i s. induction n as [|n IH]; intros i s.
  - simpl. now rewrite Nat.add_0_r.
  - change (for_loop (Datatypes.S (Datatypes.S n)) i body s)
      with (for_loop (Datatypes.S n) (Datatypes.S i) body (body i s)).
    rewrite IH. simpl. now rewrite Nat.add_succ_r.
Qed.

(** A loop that reads [a[i]] at each turn is a left fold over the
    part of the array it walks. *)
Lemma for_loop_fold (f : S -> Z -> S) (pre l rest : list Z) (s : S) :
  for_loop (length l) (length pre)
    (fun i acc => f acc (rd (pre ++ l ++ rest) i)) s
  = fold_left f l s.
Proof.
  revert pre s. induction l as [|b l IH]; intros pre s; [reflexivity|].
  simpl. unfold rd at 2.
  rewrite lookup_app_r by lia. rewrite Nat.sub_diag. simpl.
  specialize (IH (pre ++ [b]) (f s b)).
  rewrite length_app in IH. simpl in IH.
  rewrite Nat.add_1_r in IH. rewrite <- app_assoc in IH. exact IH.
Qed.
End Loops.

Import Link.

(** ** CRC-8 *)

Lemma crc8_calc_step (data : list Z) (n : nat) :
  crc8_calc data (Datatypes.S n) = crc8_update (crc8_calc data n) (rd data n).
Proof. unfold crc8_calc. rewrite for_loop_last. reflexivity. Qed.

Lemma crc8_calc_fold (pre rest : list Z) :
  crc8_calc (pre ++ rest) (length pre) = fold_left crc8_update pre 0.
Proof.
  unfold crc8_calc.
  exact (for_loop_fold crc8_update [] pre rest 0).
Qed.

(** C6.  The block CRC of a prefix of [data] is the fold of the one-byte
    update over that prefix, started at 0; and extending the prefix by
    one byte is one call of the update. *)
Theorem crc8_calc_is_fold_of_update :
  forall (pre rest : list Z),
    crc8_calc (pre ++ rest) (length pre) = fold_left crc8_update pre 0
    /\ forall b : Z,
         crc8_calc (pre ++ b :: rest) (Datatypes.S (length pre))
         = crc8_update (crc8_calc (pre ++ b :: rest) (length pre)) b.
Proof.
  intros pre rest. split; [apply crc8_calc_fold|].
  intros b. rewrite crc8_calc_step. f_equal.
  unfold rd. rewrite lookup_app_r by lia. now rewrite Nat.sub_diag.
Qed.

Example crc8_calc_123 :
  crc8_calc [0x31; 0x32; 0x33] 3 = 0xC0
  /\ fold_left crc8_update [0x31; 0x32; 0x33] 0 = 0xC0.
Proof. split; reflexivity. Qed.

(** ** Little-endian length *)

Lemma lor_shift8 (a b : Z) :
  0 <= a < 256 -> 0 <= b -> Z.lor a (Z.shiftl b 8) = a + 256 * b.
Proof.
  intros Ha Hb.
  rewrite <- Z.add_nocarry_lor.
  - rewrite Z.shiftl_mul_pow2 by lia. change (2 ^ 8) with 256. lia.
  - apply Z.bits_inj'. intros n Hn.
    rewrite Z.land_spec, Z.bits_0.
    destruct (Z.lt_ge_cases n 8) as [Hlt|Hge].
    + rewrite (Z.shiftl_spec_low b 8 n) by lia. apply andb_false_r.
    + replace (Z.testbit a n) with false; [reflexivity|].
      symmetry. destruct (Z.eq_dec a 0) as [->|Hne]; [apply Z.bits_0|].
      apply Z.bits_above_log2; [lia|].
      assert (Z.log2 a < 8); [|lia].
      apply Z.log2_lt_pow2; [lia|]. change (2 ^ 8) with 256. lia.
Qed.

Lemma length16_rebuild (L : Z) :
  0 <= L <= 65535 ->
  uint16 (Z.lor (uint16 (uint8 (Z.land L 0xFF)))
                (Z.shiftl (uint16 (uint8 (Z.land (Z.shiftr L 8) 0xFF))) 8)) = L.
Proof.
  intros HL. unfold uint8, uint16.
  change 0xFF with (Z.ones 8).
  rewrite !Z.land_ones by lia. rewrite Z.shiftr_div_pow2 by lia.
  change (2 ^ 8) with 256.
  rewrite (Z.mod_small (L mod 256 mod 256) 65536)
    by (pose proof (Z.mod_pos_bound (L mod 256) 256); lia).
  rewrite (Z.mod_small (L `div` 256 mod 256 mod 256) 65536)
    by (pose proof (Z.mod_pos_bound (L `div` 256 mod 256) 256); lia).
  rewrite !Zmod_mod.
  rewrite lor_shift8
    by (pose proof (Z.mod_pos_bound L 256); pose proof (Z.mod_pos_bound (L `div` 256) 256); lia).
  rewrite (Z.mod_small (L `div` 256) 256)
    by (split; [apply Z.div_pos; lia | apply Z.div_lt_upper_bound; lia]).
  pose proof (Z.div_mod L 256). rewrite Z.mod_small; lia.
Qed.

(** ** The receive state machine *)

Lemma rx_steps_app (bs : Z) (a b : list Z) (s : rx_locals) :
  rx_steps bs s (a ++ b)
  = match rx_steps bs s a with
    | Some s' => rx_steps bs s' b
    | None => None
    end.
Proof.
  revert s. induction a as [|x a IH]; intros s; [reflexivity|].
  simpl. destruct (rx_step bs s x); [apply IH | reflexivity].
Qed.

Lemma rx_loop_steps (bs : Z) (pre rest : list Z) (s s' : rx_locals) :
  rx_steps bs s pre = Some s' ->
  rx_loop bs s (pre ++ rest) = rx_loop bs s' rest.
Proof.
  revert s. induction pre as [|x pre IH]; intros s H; simpl in *.
  - congruence.
  - destruct (rx_step bs s x); [now apply IH | discriminate].
Qed.

Lemma store_payload_app (bs idx : Z) (a b buffer : list Z) :
  store_payload bs idx (a ++ b) buffer
  = store_payload bs (idx + Z.of_nat (length a)) b (store_payload bs idx a buffer).
Proof.
  revert idx buffer. induction a as [|x a IH]; intros idx buffer; simpl.
  - now rewrite Z.add_0_r.
  - rewrite IH. f_equal. lia.
Qed.

Lemma store_payload_beyond (bs idx : Z) (bytes buffer : list Z) :
  bs <= idx -> store_payload bs idx bytes buffer = buffer.
Proof.
  revert idx buffer. induction bytes as [|x bytes IH]; intros idx buffer H; simpl.
  - reflexivity.
  - destruct (Z.ltb_spec idx bs); [lia|]. apply IH. lia.
Qed.

Lemma store_payload_within (bs : Z) (bytes pre old tail : list Z) :
  length old = length bytes ->
  Z.of_nat (length pre + length bytes) <= bs ->
  store_payload bs (Z.of_nat (length pre)) bytes (pre ++ old ++ tail)
  = pre ++ bytes ++ tail.
Proof.
  revert pre old. induction bytes as [|x bytes IH]; intros pre old Hlen Hbs.
  - destruct old; [reflexivity | discriminate].
  - destruct old as [|o old]; [discriminate|]. simpl in *.
    destruct (Z.ltb_spec (Z.of_nat (length pre)) bs); [|lia].
    rewrite Nat2Z.id.
    replace (<[length pre:=x]> (pre ++ o :: old ++ tail))
      with ((pre ++ [x]) ++ old ++ tail).
    + replace (Z.of_nat (length pre) + 1) with (Z.of_nat (length (pre ++ [x])))
        by (rewrite length_app; simpl; lia).
      rewrite IH.
      * now rewrite <- app_assoc.
      * lia.
      * rewrite length_app. simpl. lia.
    + rewrite <- app_assoc. simpl.
      rewrite insert_app_r_alt by lia. now rewrite Nat.sub_diag.
Qed.

Lemma store_payload_length (bs idx : Z) (bytes buffer : list Z) :
  length (store_payload bs idx bytes buffer) = length buffer.
Proof.
  revert idx buffer. induction bytes as [|x bytes IH]; intros idx buffer; simpl.
  - reflexivity.
  - rewrite IH. destruct (idx <? bs); [apply length_insert | reflexivity].
Qed.

(** A buffer at least as long as the payload receives all of it. *)
Lemma store_payload_fits (bs : Z) (bytes buffer : list Z) :
  Z.of_nat (length bytes) <= bs ->
  (length bytes <= length buffer)%nat ->
  store_payload bs 0 bytes buffer = bytes ++ drop (length bytes) buffer.
Proof.
  intros Hbs Hlen.
  rewrite <- (take_drop (length bytes) buffer) at 1.
  apply (store_payload_within bs bytes [] (take (length bytes) buffer)).
  - rewrite length_take. lia.
  - simpl. lia.
Qed.

(** A payload longer than the capacity: the guard [idx < buffer_size]
    lets the first [buffer_size] bytes through and keeps every later
    cell of the buffer as it was. *)
Lemma store_payload_truncates (bs : Z) (bytes buffer : list Z) :
  0 <= bs <= Z.of_nat (length bytes) ->
  bs <= Z.of_nat (length buffer) ->
  store_payload bs 0 bytes buffer
  = take (Z.to_nat bs) bytes ++ drop (Z.to_nat bs) buffer.
Proof.
  intros Hb Hbuf.
  rewrite <- (take_drop (Z.to_nat bs) bytes) at 1.
  rewrite store_payload_app.
  rewrite store_payload_beyond by (rewrite length_take; lia).
  rewrite store_payload_fits by (rewrite length_take; lia).
  rewrite length_take, Nat.min_l by lia.
  reflexivity.
Qed.

Local Arguments crc8_update : simpl never.
Local Arguments crc8_calc : simpl never.
Local Arguments uint16 : simpl never.
Local Arguments uint8 : simpl never.

(** From the search for a start marker through the five header bytes. *)
Lemma rx_steps_header (bs lo hi len0 idx0 crc0 h0 h1 h2 : Z) (buffer : list Z) :
  let L := uint16 (Z.lor (uint16 lo) (Z.shiftl (uint16 hi) 8)) in
  let hdr := [LINK_START_BYTE; lo; hi] in
  rx_steps bs (mk_rx ST_WAIT_START len0 idx0 [h0; h1; h2] crc0 buffer)
    (hdr ++ [crc8_calc hdr 3; LINK_DATA_START_BYTE])
  = Some (mk_rx (if L =? 0 then ST_FULL_CRC else ST_PAYLOAD) L 0 hdr
            (fold_left crc8_update (hdr ++ [crc8_calc hdr 3; LINK_DATA_START_BYTE]) 0)
            buffer).
Proof.
  intros L hdr. subst L hdr.
  cbn [app rx_steps rx_step fold_left].
  change (LINK_START_BYTE =? LINK_START_BYTE) with true.
  cbn iota. cbn [rx_steps rx_step insert list_insert].
  rewrite Z.eqb_refl. cbn [negb rx_steps rx_step].
  change (LINK_DATA_START_BYTE =? LINK_DATA_START_BYTE) with true.
  reflexivity.
Qed.

(** The payload phase: every byte is consumed and folded into the CRC;
    it is stored only where the index is inside the buffer. *)
Lemma rx_steps_payload (bs : Z) (todo : list Z) :
  forall (idx L crc : Z) (hdr buffer : list Z),
    todo <> [] ->
    0 <= idx ->
    L = idx + Z.of_nat (length todo) ->
    L <= 65535 ->
    rx_steps bs (mk_rx ST_PAYLOAD L idx hdr crc buffer) todo
    = Some (mk_rx ST_FULL_CRC L L hdr (fold_left crc8_update todo crc)
              (store_payload bs idx todo buffer)).
Proof.
  induction todo as [|b todo IH]; intros idx L crc hdr buffer Hne Hidx HL Hmax;
    [congruence|].
  cbn [rx_steps rx_step].
  destruct (Z.ltb_spec idx L); [|simpl in HL; lia].
  assert (Hw : uint16 (idx + 1) = idx + 1)
    by (unfold uint16; apply Z.mod_small; simpl in HL; lia).
  rewrite Hw.
  destruct todo as [|b' todo].
  - destruct (Z.geb_spec (idx + 1) L); [|simpl in HL; lia].
    replace (idx + 1) with L by (simpl in HL; lia). reflexivity.
  - destruct (Z.geb_spec (idx + 1) L); [simpl in HL; lia|].
    rewrite (IH (idx + 1) L); [reflexivity | discriminate | lia | | lia].
    cbn [length] in *. lia.
Qed.

(** ** Frames through the state machine *)

Lemma build_frame_eq (P : list Z) :
  build_frame P (Z.of_nat (length P))
  = frame_body_of P
      ++ [fold_left crc8_update (frame_body_of P) 0; LINK_STOP_BYTE].
Proof.
  unfold build_frame, frame_body_of.
  rewrite Nat2Z.id, firstn_all.
  set (body := frame_header _ ++ _ ++ P).
  replace (Z.to_nat (Z.of_nat (length P) + 5)) with (length body)
    by (subst body; rewrite !length_app; simpl; lia).
  pose proof (for_loop_fold crc8_update [] body [] 0) as H.
  cbn [app length] in H. rewrite app_nil_r in H. now rewrite H.
Qed.

Lemma build_frame_length (P : list Z) :
  Z.of_nat (length (build_frame P (Z.of_nat (length P))))
  = Z.of_nat (length P) + 7.
Proof.
  rewrite build_frame_eq. unfold frame_body_of.
  rewrite !length_app. simpl. lia.
Qed.

Lemma rx_steps_frame_body_gen (bs len0 idx0 crc0 h0 h1 h2 lo hi L : Z)
    (P buffer : list Z) :
  uint16 (Z.lor (uint16 lo) (Z.shiftl (uint16 hi) 8)) = L ->
  L = 0 + Z.of_nat (length P) ->
  L <= 65535 ->
  rx_steps bs (mk_rx ST_WAIT_START len0 idx0 [h0; h1; h2] crc0 buffer)
    (([LINK_START_BYTE; lo; hi]
        ++ [crc8_calc [LINK_START_BYTE; lo; hi] 3; LINK_DATA_START_BYTE]) ++ P)
  = Some (mk_rx ST_FULL_CRC L L [LINK_START_BYTE; lo; hi]
            (fold_left crc8_update
               (([LINK_START_BYTE; lo; hi]
                   ++ [crc8_calc [LINK_START_BYTE; lo; hi] 3; LINK_DATA_START_BYTE])
                  ++ P) 0)
            (store_payload bs 0 P buffer)).
Proof.
  intros HL HLP Hmax.
  rewrite rx_steps_app.
  rewrite rx_steps_header.
  rewrite HL.
  rewrite (fold_left_app crc8_update _ P).
  generalize (fold_left crc8_update
                ([LINK_START_BYTE; lo; hi]
                   ++ [crc8_calc [LINK_START_BYTE; lo; hi] 3; LINK_DATA_START_BYTE]) 0).
  intros crc.
  destruct P as [|b P].
  - assert (HL0 : L = 0) by (simpl in HLP; lia). rewrite HL0. reflexivity.
  - assert (HLne : (L =? 0) = false) by (apply Z.eqb_neq; simpl in HLP; lia).
    rewrite HLne.
    apply rx_steps_payload; [discriminate | lia | exact HLP | lia].
Qed.

Lemma rx_steps_frame_body (bs len0 idx0 crc0 h0 h1 h2 : Z) (P buffer : list Z) :
  Z.of_nat (length P) <= 65535 ->
  rx_steps bs (mk_rx ST_WAIT_START len0 idx0 [h0; h1; h2] crc0 buffer)
    (frame_body_of P)
  = Some (mk_rx ST_FULL_CRC (Z.of_nat (length P)) (Z.of_nat (length P))
            (frame_header (Z.of_nat (length P)))
            (fold_left crc8_update (frame_body_of P) 0)
            (store_payload bs 0 P buffer)).
Proof.
  intros HP. unfold frame_body_of, frame_header.
  rewrite (app_assoc _ _ P).
  apply rx_steps_frame_body_gen; [apply length16_rebuild; lia | lia | exact HP].
Qed.

(** The last two bytes of a frame that fits the buffer. *)
Lemma rx_loop_tail_accept (bs L idx crc : Z) (hdr buffer rest : list Z) :
  L <= bs ->
  rx_loop bs (mk_rx ST_FULL_CRC L idx hdr crc buffer)
    ([crc; LINK_STOP_BYTE] ++ rest)
  = RxFrame L buffer rest.
Proof.
  intros HL. cbn [app rx_loop rx_step].
  destruct (Z.leb_spec L bs); [|lia].
  rewrite Z.eqb_refl. reflexivity.
Qed.

(** The last two bytes of a frame longer than the buffer: the full-CRC
    byte sends the machine back to the search for a start marker, and
    the stop marker is skipped there. *)
Lemma rx_steps_tail_reject (bs L idx crc c : Z) (hdr buffer : list Z) :
  bs < L ->
  rx_steps bs (mk_rx ST_FULL_CRC L idx hdr crc buffer) [c]
  = Some (mk_rx ST_WAIT_START L idx hdr crc buffer)
  /\ rx_steps bs (mk_rx ST_WAIT_START L idx hdr crc buffer) [LINK_STOP_BYTE]
     = Some (mk_rx ST_WAIT_START L idx hdr crc buffer).
Proof.
  intros HL. split.
  - cbn [rx_steps rx_step].
    destruct (Z.leb_spec L bs); [lia|]. reflexivity.
  - reflexivity.
Qed.

(** What [link_send_frame] does when the UART is installed and the
    frame buffer can be allocated. *)
Lemma link_send_frame_ok (P : list Z) (w : world) :
  s_uart_installed w = true ->
  fst (pvPortMalloc w) = true ->
  let L := Z.of_nat (length P) in
  fst (link_send_frame (Some P) L w) = 0
  /\ uart_tx (snd (link_send_frame (Some P) L w))
     = uart_tx w ++ build_frame P L.
Proof.
  intros Hinst Hm L.
  assert (Htake : take (Z.to_nat (L + 7)) (build_frame P L) = build_frame P L).
  { apply take_ge. subst L. pose proof (build_frame_length P). lia. }
  unfold link_send_frame. change (default [] (Some P)) with P.
  generalize dependent (build_frame P L). intros frame Htake.
  generalize dependent (L + 7). intros n Htake.
  clearbody L.
  unfold pvPortMalloc, bind, log, modify, physical_send, get, ret in *.
  destruct w as [hp inst tx rx reg cnt pq rb rl tr].
  cbn in *. subst inst.
  destruct hp as [|ok h]; cbn in *.
  - rewrite Z.eqb_refl, Htake. auto.
  - subst ok. cbn. rewrite Z.eqb_refl, Htake. auto.
Qed.

(** The receive loop over a frame that fits the buffer. *)
Lemma rx_loop_frame_fits (bs : Z) (P buffer rest : list Z) :
  Z.of_nat (length P) <= 65535 ->
  Z.of_nat (length P) <= bs ->
  (length P <= length buffer)%nat ->
  rx_loop bs (rx_init buffer) (build_frame P (Z.of_nat (length P)) ++ rest)
  = RxFrame (Z.of_nat (length P)) (P ++ drop (length P) buffer) rest.
Proof.
  intros HP Hbs Hbuf.
  rewrite build_frame_eq, <- app_assoc.
  rewrite (rx_loop_steps bs _ _ _ _ (rx_steps_frame_body bs 0 0 0 0 0 0 P buffer HP)).
  rewrite rx_loop_tail_accept by exact Hbs.
  now rewrite store_payload_fits.
Qed.

(** C2.  A payload of 0 to 65535 bytes sent by [link_send_frame] and
    fed to [link_receive_frame] with a buffer at least as large comes
    back: the sender puts [build_frame] on the wire and succeeds, and
    the receiver, given those bytes, returns 0 with the payload's length
    and the payload at the start of the buffer. *)
Theorem link_frame_roundtrip :
  forall (P buffer rest : list Z) (buffer_size out_len : Z) (w_tx w_rx : world),
    Z.of_nat (length P) <= 65535 ->
    Z.of_nat (length P) <= buffer_size ->
    Z.of_nat (length buffer) = buffer_size ->
    s_uart_installed w_tx = true ->
    fst (pvPortMalloc w_tx) = true ->
    s_uart_installed w_rx = true ->
    uart_rx w_rx
    = drop (length (uart_tx w_tx))
        (uart_tx (snd (link_send_frame (Some P) (Z.of_nat (length P)) w_tx)))
      ++ rest ->
    fst (link_send_frame (Some P) (Z.of_nat (length P)) w_tx) = 0
    /\ exists buffer',
         link_receive_frame buffer buffer_size out_len w_rx
         = ((0, buffer', Z.of_nat (length P)), set_uart_rx rest w_rx)
         /\ take (length P) buffer' = P
         /\ length buffer' = length buffer.
Proof.
  intros P buffer rest bs out_len w_tx w_rx HP Hbs Hbuf Htx Hm Hrx Hin.
  destruct (link_send_frame_ok P w_tx Htx Hm) as [Hrc Hwire].
  split; [exact Hrc|].
  rewrite Hwire, drop_app_length in Hin.
  exists (P ++ drop (length P) buffer). split; [|split].
  - unfold link_receive_frame. rewrite Hrx, Hin.
    rewrite rx_loop_frame_fits by lia. reflexivity.
  - apply take_app_length.
  - rewrite length_app, length_drop. lia.
Qed.

Lemma link_frame_roundtrip_witness :
  fst (link_send_frame (Some [1; 2; 3]) 3 world_init) = 0
  /\ exists buffer',
       link_receive_frame [9; 9; 9; 9] 4 0
         (set_uart_rx (build_frame [1; 2; 3] 3 ++ [7]) world_init)
       = ((0, buffer', 3), set_uart_rx [7] world_init)
       /\ take 3 buffer' = [1; 2; 3]
       /\ length buffer' = 4%nat.
Proof.
  apply (link_frame_roundtrip [1; 2; 3] [9; 9; 9; 9] [7] 4 0 world_init
           (set_uart_rx (build_frame [1; 2; 3] 3 ++ [7]) world_init)).
  - simpl. lia.
  - simpl. lia.
  - reflexivity.
  - reflexivity.
  - reflexivity.
  - reflexivity.
  - vm_compute. reflexivity.
Defined.

(** C5.  A well-formed frame whose payload is longer than the capacity
    [buffer_size] of a receive buffer that has at least [buffer_size]
    cells: its payload bytes are all consumed and folded into the CRC,
    the first [buffer_size] of them are stored and every cell of the
    buffer from index [buffer_size] on keeps its content, the matching
    full-CRC byte sends the machine back to the search for a start
    marker and the frame is never returned, although a buffer that is
    large enough accepts the very same bytes. *)
Theorem oversized_frame_rejected_at_full_crc :
  forall (P buffer big rest : list Z) (buffer_size : Z),
    0 <= buffer_size < Z.of_nat (length P) ->
    buffer_size <= Z.of_nat (length buffer) ->
    Z.of_nat (length P) <= 65535 ->
    (length P <= length big)%nat ->
    let kept := Z.to_nat buffer_size in
    let L := Z.of_nat (length P) in
    let body := frame_body_of P in
    let full_crc := fold_left crc8_update body 0 in
    let stored := take kept P ++ drop kept buffer in
    let rejected :=
      mk_rx ST_WAIT_START L L (frame_header L) full_crc stored in
    build_frame P L = body ++ [full_crc; LINK_STOP_BYTE]
    /\ rx_steps buffer_size (rx_init buffer) body
       = Some (mk_rx ST_FULL_CRC L L (frame_header L) full_crc stored)
    /\ rx_steps buffer_size (rx_init buffer) (body ++ [full_crc]) = Some rejected
    /\ rx_loop buffer_size (rx_init buffer) (build_frame P L ++ rest)
       = rx_loop buffer_size rejected rest
    /\ rx_loop buffer_size (rx_init buffer) (build_frame P L) = RxFail rejected
    /\ length stored = length buffer
    /\ (forall i : nat, (i < kept)%nat -> stored !! i = P !! i)
    /\ (forall i : nat, (kept <= i)%nat -> stored !! i = buffer !! i)
    /\ rx_loop (Z.of_nat (length big)) (rx_init big) (build_frame P L ++ rest)
       = RxFrame L (P ++ drop (length P) big) rest.
Proof.
  intros P buffer big rest bs Hlt Hcap HP Hbig kept L body full_crc stored rejected.
  assert (Hkept : length (take kept P) = kept)
    by (rewrite length_take; subst kept; lia).
  assert (Hbody : rx_steps bs (rx_init buffer) body
                  = Some (mk_rx ST_FULL_CRC L L (frame_header L) full_crc stored)).
  { subst L body full_crc stored kept. unfold rx_init.
    rewrite rx_steps_frame_body by exact HP.
    now rewrite store_payload_truncates by lia. }
  assert (Hcrc : rx_steps bs (rx_init buffer) (body ++ [full_crc]) = Some rejected).
  { rewrite rx_steps_app, Hbody.
    apply (rx_steps_tail_reject bs L L full_crc full_crc). subst L. lia. }
  assert (Hstop : rx_steps bs (rx_init buffer) (body ++ [full_crc; LINK_STOP_BYTE])
                  = Some rejected).
  { change [full_crc; LINK_STOP_BYTE] with ([full_crc] ++ [LINK_STOP_BYTE]).
    rewrite app_assoc, rx_steps_app, Hcrc.
    apply (rx_steps_tail_reject bs L L full_crc full_crc). subst L. lia. }
  assert (Hframe : build_frame P L = body ++ [full_crc; LINK_STOP_BYTE])
    by apply build_frame_eq.
  split; [exact Hframe|]. split; [exact Hbody|]. split; [exact Hcrc|].
  split; [|split; [|split; [|split; [|split]]]].
  - rewrite Hframe. now apply rx_loop_steps.
  - rewrite Hframe.
    rewrite <- (app_nil_r (body ++ [full_crc; LINK_STOP_BYTE])).
    now rewrite (rx_loop_steps bs _ [] _ _ Hstop).
  - subst stored. rewrite length_app, Hkept, length_drop. subst kept. lia.
  - intros i Hi. subst stored.
    rewrite lookup_app_l by (rewrite Hkept; exact Hi).
    now apply lookup_take_lt.
  - intros i Hi. subst stored.
    rewrite lookup_app_r by (rewrite Hkept; exact Hi).
    rewrite Hkept, lookup_drop. f_equal. lia.
  - apply rx_loop_frame_fits; lia.
Qed.

Lemma oversized_frame_rejected_witness :
  rx_loop 2 (rx_init [9; 9; 9; 9]) (build_frame [1; 2; 3] 3)
  = RxFail (mk_rx ST_WAIT_START 3 3 (frame_header 3)
              (fold_left crc8_update (frame_body_of [1; 2; 3]) 0) [1; 2; 9; 9]).
Proof.
  refine (proj1 (proj2 (proj2 (proj2 (proj2
    (oversized_frame_rejected_at_full_crc [1; 2; 3] [9; 9; 9; 9] [0; 0; 0] [] 2
       _ _ _ _)))))).
  - simpl. lia.
  - simpl. lia.
  - simpl. lia.
  - simpl. lia.
Defined.

(** ** One turn of the receiver task *)

Lemma rd_app_l (a b : list Z) (i : nat) :
  (i < length a)%nat -> rd (a ++ b) i = rd a i.
Proof. intros H. unfold rd. now rewrite lookup_app_l. Qed.

(** A well-formed frame waiting in the UART is decoded into [rx_buffer]
    and handed to the dispatch. *)
Lemma receiver_iteration_frame (w : world) (msg rest : list Z) :
  s_uart_installed w = true ->
  length (rx_buffer w) = 256%nat ->
  2 <= Z.of_nat (length msg) <= 256 ->
  uart_rx w = build_frame msg (Z.of_nat (length msg)) ++ rest ->
  transport_receiver_iteration w
  = receiver_dispatch
      (set_rx (msg ++ drop (length msg) (rx_buffer w)) (Z.of_nat (length msg))
         (set_uart_rx rest w)).
Proof.
  intros Hinst Hbuf Hlen Hin.
  unfold transport_receiver_iteration.
  unfold bind at 1. unfold get at 1.
  unfold bind at 1. unfold get at 1.
  unfold bind at 1.
  assert (Hrecv : link_receive_frame (rx_buffer w) 256 (rx_len w) w
                  = ((0, msg ++ drop (length msg) (rx_buffer w),
                      Z.of_nat (length msg)), set_uart_rx rest w)).
  { unfold link_receive_frame. rewrite Hinst, Hin.
    rewrite rx_loop_frame_fits by lia. reflexivity. }
  rewrite Hrecv. unfold bind at 1. unfold modify at 1.
  change (negb (0 =? 0)) with false. cbv iota.
  destruct (Z.ltb_spec (Z.of_nat (length msg)) 2); [lia | reflexivity].
Qed.

(** ** Correlation of replies *)

Lemma receiver_dispatch_mismatch (w : world) :
  rd (rx_buffer w) 0 = MSG_TYPE_RESPONSE \/ rd (rx_buffer w) 0 = MSG_TYPE_ERROR ->
  rd (rx_buffer w) 1 <> current_counter w ->
  receiver_dispatch w = (tt, w).
Proof.
  intros Htype Hne.
  apply Z.eqb_neq in Hne.
  unfold receiver_dispatch.
  cbv beta iota zeta delta [bind get ret].
  destruct Htype as [-> | ->];
    change (MSG_TYPE_RESPONSE =? MSG_TYPE_REQUEST) with false;
    change (MSG_TYPE_ERROR =? MSG_TYPE_REQUEST) with false;
    change (MSG_TYPE_RESPONSE =? MSG_TYPE_RESPONSE) with true;
    change (MSG_TYPE_ERROR =? MSG_TYPE_RESPONSE) with false;
    change (MSG_TYPE_ERROR =? MSG_TYPE_ERROR) with true;
    cbv iota beta delta [orb];
    rewrite Hne; destruct (pending_queue w); reflexivity.
Qed.

(** C4.  A call is pending with counter [current_counter w] and a
    Response or Error frame arrives.  If its counter byte differs, the
    turn of the receive loop only consumes the frame: nothing is
    delivered and the pending queue, the counter, the heap and the wire
    are untouched.  So the pending queue changes only if the counter
    byte equals the pending counter. *)
Theorem mismatched_reply_dropped :
  forall (w : world) (q : list (list Z)) (type counter : Z) (data rest : list Z),
    let msg := type :: counter :: data in
    pending_queue w = Some q ->
    s_uart_installed w = true ->
    length (rx_buffer w) = 256%nat ->
    Z.of_nat (length msg) <= 256 ->
    uart_rx w = build_frame msg (Z.of_nat (length msg)) ++ rest ->
    type = MSG_TYPE_RESPONSE \/ type = MSG_TYPE_ERROR ->
    let w' := snd (transport_receiver_iteration w) in
    (counter <> current_counter w ->
       w' = set_rx (msg ++ drop (length msg) (rx_buffer w))
                   (Z.of_nat (length msg)) (set_uart_rx rest w)
       /\ pending_queue w' = Some q
       /\ current_counter w' = current_counter w)
    /\ (pending_queue w' <> pending_queue w -> counter = current_counter w).
Proof.
  intros w q type counter data rest msg Hq Hinst Hbuf Hlen Hin Htype w'.
  assert (Hit : transport_receiver_iteration w
                = receiver_dispatch
                    (set_rx (msg ++ drop (length msg) (rx_buffer w))
                       (Z.of_nat (length msg)) (set_uart_rx rest w))).
  { apply receiver_iteration_frame; auto. subst msg. simpl length in *. lia. }
  assert (Hdrop : counter <> current_counter w ->
            w' = set_rx (msg ++ drop (length msg) (rx_buffer w))
                   (Z.of_nat (length msg)) (set_uart_rx rest w)).
  { intros Hne. subst w'. rewrite Hit.
    rewrite receiver_dispatch_mismatch; [reflexivity | exact Htype | exact Hne]. }
  split.
  - intros Hne. rewrite (Hdrop Hne). split; [reflexivity|]. split; [exact Hq | reflexivity].
  - intros Hchg. destruct (Z.eq_dec counter (current_counter w)) as [Heq|Hne];
      [exact Heq|].
    exfalso. apply Hchg. now rewrite (Hdrop Hne).
Qed.

Lemma mismatched_reply_dropped_witness :
  let msg := [MSG_TYPE_RESPONSE; 4; 0x33] in
  let w := set_uart_rx (build_frame msg 3)
             (set_current_counter 5 (set_pending_queue (Some []) world_init)) in
  snd (transport_receiver_iteration w)
  = set_rx (msg ++ drop 3 (rx_buffer w)) 3 (set_uart_rx [] w).
Proof.
  intros msg w.
  refine (proj1 (proj1 (mismatched_reply_dropped w [] MSG_TYPE_RESPONSE 4 [0x33] []
                          _ _ _ _ _ _) _)).
  - reflexivity.
  - reflexivity.
  - reflexivity.
  - simpl. lia.
  - vm_compute. reflexivity.
  - left. reflexivity.
  - vm_compute. discriminate.
Defined.

(** ** Error replies without an error code *)

Lemma receiver_dispatch_short_error (w : world) :
  rd (rx_buffer w) 0 = MSG_TYPE_ERROR ->
  rd (rx_buffer w) 1 = current_counter w ->
  rx_len w = 2 ->
  pending_queue w = Some [] ->
  fst (pvPortMalloc w) = true ->
  receiver_dispatch w
  = (tt, set_pending_queue (Some [[0; 0; ERR_INTERNAL]]) (snd (pvPortMalloc w))).
Proof.
  intros Htype Hcnt Hlen Hq Hm.
  unfold receiver_dispatch.
  cbv beta iota zeta delta [bind get ret].
  rewrite Htype.
  change (MSG_TYPE_ERROR =? MSG_TYPE_REQUEST) with false.
  change (MSG_TYPE_ERROR =? MSG_TYPE_RESPONSE) with false.
  change (MSG_TYPE_ERROR =? MSG_TYPE_ERROR) with true.
  cbv beta iota delta [orb andb].
  rewrite Hq, Hcnt, Hlen, Z.eqb_refl.
  change (2 >=? 3) with false. cbv beta iota.
  destruct (pvPortMalloc w) as [ok w1]. cbn [fst snd] in *. subst ok.
  reflexivity.
Qed.

(** C9.  An Error frame of two bytes (type and counter, no error code)
    whose counter is that of the pending call: the receive loop puts the
    envelope [0; 0; ERR_INTERNAL] in the pending queue, and the waiting
    caller returns 0 with error code 2, no result bytes and the pending
    state cleared. *)
Theorem short_error_reply_delivers_internal_error :
  forall (w : world) (rest : list Z) (outs : call_outs),
    let msg := [MSG_TYPE_ERROR; current_counter w] in
    pending_queue w = Some [] ->
    s_uart_installed w = true ->
    length (rx_buffer w) = 256%nat ->
    fst (pvPortMalloc w) = true ->
    uart_rx w = build_frame msg 2 ++ rest ->
    let w' := snd (transport_receiver_iteration w) in
    pending_queue w' = Some [[0; 0; ERR_INTERNAL]]
    /\ fst (transport_call_wait outs w') = (0, mk_outs None 0 ERR_INTERNAL)
    /\ pending_queue (snd (transport_call_wait outs w')) = None.
Proof.
  intros w rest outs msg Hq Hinst Hbuf Hm Hin w'.
  assert (Hit : transport_receiver_iteration w
                = receiver_dispatch
                    (set_rx (msg ++ drop (length msg) (rx_buffer w))
                       (Z.of_nat (length msg)) (set_uart_rx rest w))).
  { apply receiver_iteration_frame; auto. simpl. lia. }
  set (w1 := set_rx _ _ _) in Hit.
  assert (Hm1 : fst (pvPortMalloc w1) = true).
  { unfold pvPortMalloc in *. subst w1. cbn [heap set_rx set_uart_rx].
    destruct (heap w); [reflexivity | exact Hm]. }
  assert (Hw' : w' = set_pending_queue (Some [[0; 0; ERR_INTERNAL]])
                       (snd (pvPortMalloc w1))).
  { subst w'. rewrite Hit.
    rewrite receiver_dispatch_short_error; auto. }
  rewrite Hw'. split; [reflexivity|].
  unfold transport_call_wait, bind, xQueueReceive.
  cbn [pending_queue set_pending_queue].
  split; reflexivity.
Qed.

Lemma short_error_reply_witness :
  let w := set_uart_rx (build_frame [MSG_TYPE_ERROR; 5] 2)
             (set_current_counter 5 (set_pending_queue (Some []) world_init)) in
  let w' := snd (transport_receiver_iteration w) in
  pending_queue w' = Some [[0; 0; 2]]
  /\ fst (transport_call_wait (mk_outs None 0 0) w') = (0, mk_outs None 0 2)
  /\ pending_queue (snd (transport_call_wait (mk_outs None 0 0) w')) = None.
Proof.
  intros w.
  apply (short_error_reply_delivers_internal_error w [] (mk_outs None 0 0)).
  - reflexivity.
  - reflexivity.
  - reflexivity.
  - reflexivity.
  - vm_compute. reflexivity.
Defined.
(** ** C strings and the registry scan *)

Lemma strlen_le_length (s : list Z) : (strlen s <= length s)%nat.
Proof.
  induction s as [|c s IH]; simpl; [lia|].
  destruct (c =? 0); lia.
Qed.

Lemma c_string_length (s : list Z) : length (c_string s) = strlen s.
Proof.
  unfold c_string. rewrite length_take.
  pose proof (strlen_le_length s). lia.
Qed.

(** [strncmp] over the full length of its first argument returns 0
    exactly on equal characters. *)
Lemma strncmp_0_take (n : nat) :
  forall s1 s2 : list Z,
    strlen s1 = n ->
    (n <= length s2)%nat ->
    strncmp s1 s2 n = 0 ->
    take n s1 = take n s2.
Proof.
  induction n as [|n IH]; intros s1 s2 Hlen Hs2 Hcmp; [reflexivity|].
  destruct s1 as [|c1 s1]; [discriminate|].
  destruct s2 as [|c2 s2]; [simpl in Hs2; lia|].
  simpl in Hlen, Hcmp, Hs2.
  destruct (Z.eqb_spec c1 0) as [|Hc1]; [discriminate|].
  unfold rd in Hcmp. simpl in Hcmp.
  destruct (Z.eqb_spec c1 c2) as [->|Hne]; [|lia].
  destruct (Z.eqb_spec c2 0); [contradiction|].
  simpl. f_equal. apply IH; [lia | lia | exact Hcmp].
Qed.

Lemma take_strncmp_0 (n : nat) :
  forall s1 s2 : list Z,
    strlen s1 = n ->
    take n s1 = take n s2 ->
    strncmp s1 s2 n = 0.
Proof.
  induction n as [|n IH]; intros s1 s2 Hlen Htake; [reflexivity|].
  destruct s1 as [|c1 s1]; [discriminate|].
  simpl in Hlen.
  destruct (Z.eqb_spec c1 0) as [|Hc1]; [discriminate|].
  destruct s2 as [|c2 s2]; [discriminate|].
  simpl in Htake. injection Htake as -> Htake.
  simpl. unfold rd. simpl.
  rewrite Z.eqb_refl.
  destruct (Z.eqb_spec c2 0); [contradiction|].
  apply IH; [lia | exact Htake].
Qed.

(** The test of [find_function] is equality of the registered C string
    with the [name_len] bytes at [name]. *)
Lemma entry_matches_iff (e : rpc_entry_t) (name : list Z) (n : nat) :
  (n <= length name)%nat ->
  entry_matches e name (Z.of_nat n) = true
  <-> c_string (entry_name e) = take n name.
Proof.
  intros Hn. unfold entry_matches. rewrite Nat2Z.id.
  rewrite andb_true_iff, !Z.eqb_eq. split.
  - intros [Hlen Hcmp]. apply Nat2Z.inj in Hlen.
    unfold c_string. rewrite Hlen.
    now apply strncmp_0_take.
  - intros Heq.
    assert (Hlen : strlen (entry_name e) = n).
    { rewrite <- c_string_length, Heq, length_take. lia. }
    split; [now rewrite Hlen|].
    apply take_strncmp_0; [exact Hlen|].
    unfold c_string in Heq. now rewrite Hlen in Heq.
Qed.

(** The scan returns the first slot that passes the test. *)
Lemma find_function_from_spec (registry : list rpc_entry_t) (name : list Z) (name_len : Z) :
  forall (i k : nat),
    find_function_from registry i name name_len = Some k ->
    (i <= k)%nat
    /\ (exists e, registry !! (k - i)%nat = Some e
                  /\ entry_matches e name name_len = true)
    /\ (forall j e', (j < k - i)%nat -> registry !! j = Some e' ->
                     entry_matches e' name name_len = false).
Proof.
  induction registry as [|e registry IH]; intros i k H; [discriminate|].
  simpl in H. destruct (entry_matches e name name_len) eqn:He.
  - injection H as <-. rewrite Nat.sub_diag. split; [lia|]. split.
    + exists e. split; [reflexivity | exact He].
    + intros j e' Hj. lia.
  - destruct (IH _ _ H) as (Hik & (ek & Hk & Hm) & Hmin).
    split; [lia|].
    replace (k - i)%nat with (S (k - S i)) by lia. split.
    + exists ek. split; [exact Hk | exact Hm].
    + intros [|j] e' Hj Hl; simpl in Hl.
      * injection Hl as <-. exact He.
      * apply (Hmin j); [lia | exact Hl].
Qed.

Lemma find_function_from_complete (registry : list rpc_entry_t) (name : list Z) (name_len : Z) :
  forall (i j : nat) (e : rpc_entry_t),
    registry !! j = Some e ->
    entry_matches e name name_len = true ->
    exists k, find_function_from registry i name name_len = Some k
              /\ (k <= i + j)%nat.
Proof.
  induction registry as [|e0 registry IH]; intros i j e Hj He; [discriminate|].
  simpl. destruct (entry_matches e0 name name_len) eqn:He0.
  - exists i. split; [reflexivity | lia].
  - destruct j as [|j]; simpl in Hj.
    + injection Hj as ->. congruence.
    + destruct (IH (S i) j e Hj He) as (k & Hk & Hle).
      exists k. split; [exact Hk | lia].
Qed.

Lemma find_function_from_none (registry : list rpc_entry_t) (name : list Z) (name_len : Z) :
  forall i : nat,
    (forall e, e ∈ registry -> entry_matches e name name_len = false) ->
    find_function_from registry i name name_len = None.
Proof.
  induction registry as [|e registry IH]; intros i H; [reflexivity|].
  simpl. rewrite (H e) by apply list_elem_of_here.
  apply IH. intros e' He'. apply H. now apply list_elem_of_further.
Qed.


Lemma strlen_app_nul (s rest : list Z) :
  Forall (fun c => c <> 0) s -> strlen (s ++ 0 :: rest) = length s.
Proof.
  induction 1 as [|c s Hc _ IH]; [reflexivity|].
  simpl. destruct (Z.eqb_spec c 0); [contradiction|]. now rewrite IH.
Qed.

Lemma c_string_app_nul (s rest : list Z) :
  Forall (fun c => c <> 0) s -> c_string (s ++ 0 :: rest) = s.
Proof.
  intros H. unfold c_string. rewrite strlen_app_nul by exact H.
  apply take_app_length.
Qed.

(** A registration with room in the registry and memory for the copy. *)
Lemma register_ok (w : world) (name : list Z) (cb : rpc_callback_t) :
  registry_count w < MAX_FUNCTIONS ->
  heap w = [] ->
  transport_register_function (Some name) (Some cb) w
  = (0, set_function_registry
          (function_registry w ++ [mk_entry (c_string name ++ [0]) cb]) w).
Proof.
  intros Hroom Hheap.
  unfold transport_register_function, bind, get, ret, modify, pvPortMalloc.
  destruct (Z.geb_spec (registry_count w) MAX_FUNCTIONS); [lia|].
  rewrite Hheap. reflexivity.
Qed.

(** C10.  The lookup returns the lowest slot that passes its test:
    whenever some slot [j] passes, the result [k] is at most [j], no
    slot before [k] passes, the result is never after a slot that
    carries the same name as slot [j], and no slot before the result
    carries the result's name.  Registering one name twice is accepted,
    the two entries take consecutive slots in the order of the calls,
    and the lookup of that name then finds the first of them. *)
Theorem find_function_returns_earliest_duplicate :
  (forall (registry : list rpc_entry_t) (name : list Z) (name_len : Z)
          (j : nat) (e : rpc_entry_t),
     registry !! j = Some e ->
     entry_matches e name name_len = true ->
     exists (k : nat) (ek : rpc_entry_t),
       find_function_from registry 0 name name_len = Some k
       /\ registry !! k = Some ek
       /\ entry_matches ek name name_len = true
       /\ (k <= j)%nat
       /\ (forall i ei, registry !! i = Some ei ->
                        entry_name ei = entry_name e -> (k <= i)%nat)
       /\ (forall i ei, (i < k)%nat -> registry !! i = Some ei ->
                        entry_matches ei name name_len = false
                        /\ entry_name ei <> entry_name ek))
  /\ (forall (w : world) (fname rest : list Z) (cb1 cb2 : rpc_callback_t),
        Forall (fun c => c <> 0) fname ->
        registry_count w + 2 <= MAX_FUNCTIONS ->
        heap w = [] ->
        (forall e, e ∈ function_registry w -> c_string (entry_name e) <> fname) ->
        let r1 := transport_register_function (Some (fname ++ [0])) (Some cb1) w in
        let r2 := transport_register_function (Some (fname ++ [0])) (Some cb2) (snd r1) in
        fst r1 = 0 /\ fst r2 = 0
        /\ function_registry (snd r2)
           = function_registry w
               ++ [mk_entry (fname ++ [0]) cb1; mk_entry (fname ++ [0]) cb2]
        /\ find_function_from (function_registry (snd r2)) 0
             (fname ++ 0 :: rest) (Z.of_nat (length fname))
           = Some (length (function_registry w))).
Proof.
  assert (HA : forall (registry : list rpc_entry_t) (name : list Z) (name_len : Z)
          (j : nat) (e : rpc_entry_t),
     registry !! j = Some e ->
     entry_matches e name name_len = true ->
     exists (k : nat) (ek : rpc_entry_t),
       find_function_from registry 0 name name_len = Some k
       /\ registry !! k = Some ek
       /\ entry_matches ek name name_len = true
       /\ (k <= j)%nat
       /\ (forall i ei, registry !! i = Some ei ->
                        entry_name ei = entry_name e -> (k <= i)%nat)
       /\ (forall i ei, (i < k)%nat -> registry !! i = Some ei ->
                        entry_matches ei name name_len = false
                        /\ entry_name ei <> entry_name ek)).
  { intros registry name name_len j e Hj He.
    destruct (find_function_from_complete registry name name_len 0 j e Hj He)
      as (k & Hk & Hle).
    destruct (find_function_from_spec registry name name_len 0 k Hk)
      as (_ & (ek & Hek & Hm) & Hmin).
    rewrite Nat.sub_0_r in Hek, Hmin.
    exists k, ek. split; [exact Hk|]. split; [exact Hek|]. split; [exact Hm|].
    split; [lia|]. split.
    - intros i ei Hi Hname.
      destruct (Nat.le_gt_cases k i) as [|Hlt]; [assumption|].
      exfalso. pose proof (Hmin i ei Hlt Hi) as Hf.
      unfold entry_matches in Hf, He. rewrite Hname in Hf. congruence.
    - intros i ei Hlt Hi. pose proof (Hmin i ei Hlt Hi) as Hf.
      split; [exact Hf|].
      intros Hname. unfold entry_matches in Hf, Hm. rewrite Hname in Hf.
      congruence. }
  split; [exact HA|].
  intros w fname rest cb1 cb2 Hnz Hroom Hheap Hreg r1 r2.
  assert (Hcs : c_string (fname ++ [0]) = fname) by now apply c_string_app_nul.
  assert (H1 : r1 = (0, set_function_registry
                          (function_registry w ++ [mk_entry (fname ++ [0]) cb1]) w)).
  { subst r1. rewrite register_ok by (auto; lia). now rewrite Hcs. }
  assert (H2 : r2 = (0, set_function_registry
                          ((function_registry w ++ [mk_entry (fname ++ [0]) cb1])
                             ++ [mk_entry (fname ++ [0]) cb2]) w)).
  { subst r2. rewrite H1. cbn [snd]. rewrite register_ok.
    - now rewrite Hcs.
    - unfold registry_count in *. cbn [function_registry set_function_registry].
      rewrite length_app. cbn [length]. lia.
    - exact Hheap. }
  rewrite H1, H2. cbn [fst snd function_registry set_function_registry].
  rewrite <- app_assoc. cbn [app].
  split; [reflexivity|]. split; [reflexivity|]. split; [reflexivity|].
  set (reg := function_registry w) in *.
  set (e1 := mk_entry (fname ++ [0]) cb1).
  set (e2 := mk_entry (fname ++ [0]) cb2).
  set (n := length fname).
  assert (Hfits : (n <= length (fname ++ 0%Z :: rest))%nat)
    by (rewrite length_app; subst n; lia).
  assert (Htake : take n (fname ++ 0 :: rest) = fname)
    by (subst n; apply take_app_length).
  assert (He1 : entry_matches e1 (fname ++ 0 :: rest) (Z.of_nat n) = true).
  { apply entry_matches_iff; [exact Hfits|]. now rewrite Htake. }
  assert (Hl1 : (reg ++ [e1; e2]) !! length reg = Some e1).
  { rewrite lookup_app_r by lia. now rewrite Nat.sub_diag. }
  destruct (HA (reg ++ [e1; e2]) _ _ _ _ Hl1 He1)
    as (k & ek & Hk & Hek & Hm & Hle & _ & _).
  rewrite Hk. f_equal.
  destruct (Nat.eq_dec k (length reg)) as [|Hne]; [assumption|].
  exfalso.
  rewrite lookup_app_l in Hek by lia.
  apply (Hreg ek); [eapply list_elem_of_lookup_2; exact Hek|].
  apply entry_matches_iff in Hm; [|exact Hfits]. now rewrite Hm.
Qed.

Lemma find_function_earliest_witness :
  let first : rpc_callback_t := fun _ _ => (None, 0, 1) in
  let second : rpc_callback_t := fun _ _ => (None, 0, 2) in
  let sum := [0x73; 0x75; 0x6D; 0] in
  let registry := [mk_entry sum first; mk_entry sum second] in
  exists (k : nat) (ek : rpc_entry_t),
    find_function_from registry 0 [0x73; 0x75; 0x6D; 0; 1; 2] 3 = Some k
    /\ registry !! k = Some ek
    /\ entry_matches ek [0x73; 0x75; 0x6D; 0; 1; 2] 3 = true
    /\ (k <= 1)%nat
    /\ (forall i ei, registry !! i = Some ei ->
                     entry_name ei = sum -> (k <= i)%nat)
    /\ (forall i ei, (i < k)%nat -> registry !! i = Some ei ->
                     entry_matches ei [0x73; 0x75; 0x6D; 0; 1; 2] 3 = false
                     /\ entry_name ei <> entry_name ek).
Proof.
  intros first second sum registry.
  apply (proj1 find_function_returns_earliest_duplicate registry
           [0x73; 0x75; 0x6D; 0; 1; 2] 3 1%nat (mk_entry sum second)).
  - reflexivity.
  - reflexivity.
Defined.

(** ** Requests for unknown functions *)

Lemma rd_cons_S (x : Z) (l : list Z) (i : nat) : rd (x :: l) (S i) = rd l i.
Proof. reflexivity. Qed.

Lemma rd_app_r (a b : list Z) (i : nat) :
  (length a <= i)%nat -> rd (a ++ b) i = rd b (i - length a).
Proof. intros H. unfold rd. now rewrite lookup_app_r. Qed.

Lemma scan_name_finds (buf : list Z) (len i : Z) :
  forall (fuel : nat) (k : Z),
    0 <= k <= i ->
    i < len <= 65536 ->
    (forall j, k <= j < i -> rd buf (Z.to_nat j) <> 0) ->
    rd buf (Z.to_nat i) = 0 ->
    (Z.to_nat (i - k) <= fuel)%nat ->
    scan_name fuel buf len k = i.
Proof.
  induction fuel as [|fuel IH]; intros k Hk Hlen Hnz Hz Hfuel.
  - simpl. lia.
  - simpl. destruct (Z.eq_dec k i) as [->|Hne].
    + rewrite Hz. simpl. rewrite andb_false_r. reflexivity.
    + destruct (Z.ltb_spec k len); [|lia].
      destruct (Z.eqb_spec (rd buf (Z.to_nat k)) 0) as [Hk0|_].
      * exfalso. apply (Hnz k); [lia | exact Hk0].
      * simpl.
        replace (uint16 (k + 1)) with (k + 1)
          by (unfold uint16; rewrite Z.mod_small; lia).
        apply IH; [lia | lia | | exact Hz | lia].
        intros j Hj. apply Hnz. lia.
Qed.

(** Case analysis over the paths of [link_send_frame]: NULL payload,
    allocation outcome, UART installed or not, short write or not. *)
Ltac link_send_frame_paths w p len :=
  unfold link_send_frame, bind, log, modify, physical_send, get, ret,
    pvPortMalloc;
  destruct w as [hp inst tx rx reg cnt pq rb rl tr];
  cbn [trace set_trace heap s_uart_installed uart_tx snd fst];
  destruct (is_null p && (len >? 0)); [reflexivity|];
  destruct hp as [|[] hp]; destruct inst;
    cbn [negb set_heap trace set_trace set_uart_tx heap s_uart_installed
         uart_tx fst snd];
    repeat match goal with
           | |- context [if ?c then _ else _] => destruct c
           end;
    reflexivity.

Lemma link_send_frame_trace (p : option (list Z)) (len : Z) (w : world) :
  trace (snd (link_send_frame p len w)) = trace w ++ [EvLinkSend p len].
Proof.
  link_send_frame_paths w p len.
Qed.

Lemma send_error_response_snd (counter code : Z) (w : world) :
  snd (send_error_response counter code w)
  = snd (link_send_frame (Some [MSG_TYPE_ERROR; counter; code]) 3 w).
Proof.
  unfold send_error_response, bind, ret.
  now destruct (link_send_frame _ 3 w).
Qed.

(** The dispatch of a Request whose name is not registered. *)
Lemma receiver_dispatch_unknown_function
    (w : world) (counter : Z) (fname args tail : list Z) :
  rx_buffer w = MSG_TYPE_REQUEST :: counter :: fname ++ 0 :: args ++ tail ->
  rx_len w = Z.of_nat (3 + length fname + length args) ->
  rx_len w <= 256 ->
  Forall (fun c => c <> 0) fname ->
  (forall e, e ∈ function_registry w -> c_string (entry_name e) <> fname) ->
  receiver_dispatch w = send_error_response counter ERR_FUNC_NOT_FOUND w.
Proof.
  intros Hbuf Hlen Hmax Hnz Hreg.
  set (n := length fname) in *.
  assert (Hscan : scan_name (Z.to_nat (rx_len w)) (rx_buffer w) (rx_len w) 2
                  = 2 + Z.of_nat n).
  { apply scan_name_finds; try lia.
    - intros j Hj. rewrite Hbuf.
      replace (Z.to_nat j) with (S (S (Z.to_nat (j - 2)))) by lia.
      rewrite !rd_cons_S, rd_app_l by (fold n; lia).
      unfold rd.
      destruct (fname !! Z.to_nat (j - 2)) as [c|] eqn:Hc.
      + simpl. eapply Forall_lookup_1 in Hnz; eauto.
      + apply lookup_ge_None in Hc. fold n in Hc. lia.
    - rewrite Hbuf.
      replace (Z.to_nat (2 + Z.of_nat n)) with (S (S n)) by lia.
      rewrite !rd_cons_S, rd_app_r by (fold n; lia).
      fold n. now rewrite Nat.sub_diag. }
  assert (Hnl : uint8 (2 + Z.of_nat n - 2) = Z.of_nat n)
    by (unfold uint8; rewrite Z.mod_small; lia).
  assert (Hdrop : drop 2 (rx_buffer w) = fname ++ 0 :: args ++ tail)
    by (now rewrite Hbuf).
  assert (Hfind : find_function_from (function_registry w) 0
                    (drop 2 (rx_buffer w)) (Z.of_nat n) = None).
  { apply find_function_from_none. intros e He.
    destruct (entry_matches e (drop 2 (rx_buffer w)) (Z.of_nat n)) eqn:Hm;
      [|reflexivity].
    exfalso. apply (Hreg e He).
    apply entry_matches_iff in Hm.
    - rewrite Hm, Hdrop. subst n. apply take_app_length.
    - rewrite Hdrop, length_app. lia. }
  unfold receiver_dispatch.
  cbv beta iota zeta delta [bind get ret find_function].
  rewrite Hscan, Hnl.
  replace (rd (rx_buffer w) 0) with MSG_TYPE_REQUEST by (now rewrite Hbuf).
  replace (rd (rx_buffer w) 1) with counter by (now rewrite Hbuf).
  change (MSG_TYPE_REQUEST =? MSG_TYPE_REQUEST) with true. cbv iota.
  destruct (Z.ltb_spec (rx_len w) 3); [lia|].
  destruct (Z.geb_spec (2 + Z.of_nat n) (rx_len w)); [lia|].
  cbv beta iota. rewrite Hfind. reflexivity.
Qed.

(** C8.  A Request frame whose NUL-terminated name equals no registered
    name: the turn of the receive loop is exactly one call of
    [send_error_response] with the request's counter and
    [ERR_FUNC_NOT_FOUND]; the link layer is entered once, with the
    payload [0x21; counter; 0x01], no callback is invoked, and when the
    frame buffer can be allocated those bytes go on the wire framed. *)
Theorem unknown_function_yields_not_found :
  forall (w : world) (counter : Z) (fname args rest : list Z),
    let msg := MSG_TYPE_REQUEST :: counter :: fname ++ 0 :: args in
    s_uart_installed w = true ->
    length (rx_buffer w) = 256%nat ->
    Z.of_nat (length msg) <= 256 ->
    uart_rx w = build_frame msg (Z.of_nat (length msg)) ++ rest ->
    Forall (fun c => c <> 0) fname ->
    (forall e, e ∈ function_registry w -> c_string (entry_name e) <> fname) ->
    let w1 := set_rx (msg ++ drop (length msg) (rx_buffer w))
                (Z.of_nat (length msg)) (set_uart_rx rest w) in
    let w' := snd (transport_receiver_iteration w) in
    transport_receiver_iteration w
    = send_error_response counter ERR_FUNC_NOT_FOUND w1
    /\ trace w' = trace w ++ [EvLinkSend (Some [0x21; counter; 0x01]) 3]
    /\ (fst (pvPortMalloc w) = true ->
        uart_tx w' = uart_tx w ++ build_frame [0x21; counter; 0x01] 3).
Proof.
  intros w counter fname args rest msg Hinst Hbuf Hlen Hin Hnz Hreg w1 w'.
  assert (Hmsg : length msg = (3 + length fname + length args)%nat).
  { subst msg. cbn [length]. rewrite length_app. cbn [length]. lia. }
  assert (Hit : transport_receiver_iteration w = receiver_dispatch w1).
  { apply receiver_iteration_frame; auto. lia. }
  assert (Hdisp : receiver_dispatch w1
                  = send_error_response counter ERR_FUNC_NOT_FOUND w1).
  { apply (receiver_dispatch_unknown_function w1 counter fname args
             (drop (length msg) (rx_buffer w))).
    - subst w1 msg. cbn [rx_buffer set_rx].
      rewrite <- !app_comm_cons, <- app_assoc. reflexivity.
    - subst w1. cbn [rx_len set_rx]. now rewrite Hmsg.
    - subst w1. cbn [rx_len set_rx]. exact Hlen.
    - exact Hnz.
    - exact Hreg. }
  assert (Hw' : w' = snd (link_send_frame
                            (Some [MSG_TYPE_ERROR; counter; ERR_FUNC_NOT_FOUND]) 3 w1)).
  { subst w'. rewrite Hit, Hdisp. apply send_error_response_snd. }
  split; [now rewrite Hit|]. split.
  - rewrite Hw', link_send_frame_trace. reflexivity.
  - intros Hm. rewrite Hw'.
    assert (Hm1 : fst (pvPortMalloc w1) = true).
    { unfold pvPortMalloc in *. subst w1. cbn [heap set_rx set_uart_rx].
      destruct (heap w); [reflexivity | exact Hm]. }
    exact (proj2 (link_send_frame_ok [MSG_TYPE_ERROR; counter; ERR_FUNC_NOT_FOUND]
                    w1 Hinst Hm1)).
Qed.

Lemma unknown_function_witness :
  let msg := [MSG_TYPE_REQUEST; 5; 0x6E; 0x6F; 0; 1; 2] in
  let sum := mk_entry [0x73; 0x75; 0x6D; 0] (fun _ _ => (None, 0, 0)) in
  let w := set_uart_rx (build_frame msg 7)
             (set_function_registry [sum] world_init) in
  trace (snd (transport_receiver_iteration w))
  = [EvLinkSend (Some [0x21; 5; 0x01]) 3].
Proof.
  intros msg sum w.
  refine (proj1 (proj2 (unknown_function_yields_not_found w 5 [0x6E; 0x6F] [1; 2] []
                          _ _ _ _ _ _))).
  - reflexivity.
  - reflexivity.
  - simpl. lia.
  - vm_compute. reflexivity.
  - repeat constructor; discriminate.
  - intros e He. apply list_elem_of_singleton in He. subst e.
    vm_compute. discriminate.
Defined.

(** ** Registration *)

(** C7, as the code has it.  Registration fails with a negative code,
    and leaves the whole world as it was, whenever the registry is full,
    the name pointer is NULL or the callback pointer is NULL. *)
Theorem register_rejects_null_or_full :
  forall (w : world) (name : option (list Z)) (callback : option rpc_callback_t),
    registry_count w >= MAX_FUNCTIONS \/ name = None \/ callback = None ->
    exists rc : Z,
      rc < 0 /\ transport_register_function name callback w = (rc, w).
Proof.
  intros w name callback H.
  unfold transport_register_function.
  destruct name as [name|]; [destruct callback as [callback|]|].
  - destruct H as [H | [H | H]]; try discriminate.
    exists (-2). split; [lia|].
    unfold bind, get, ret.
    destruct (Z.geb_spec (registry_count w) MAX_FUNCTIONS); [reflexivity | lia].
  - exists (-1). split; [lia | reflexivity].
  - exists (-1). split; [lia | reflexivity].
Qed.

Lemma register_rejects_null_or_full_witness :
  exists rc : Z,
    rc < 0
    /\ transport_register_function None (Some (fun _ _ => (None, 0, 0))) world_init
       = (rc, world_init).
Proof.
  apply (register_rejects_null_or_full world_init None
           (Some (fun _ _ => (None, 0, 0)))).
  right. left. reflexivity.
Defined.

(** C7 as stated fails on the code: an empty name that is not NULL is
    registered like any other, the call returns 0 and the registry
    grows by an entry. *)
Lemma register_empty_name_accepted :
  let cb : rpc_callback_t := fun _ _ => (None, 0, 0) in
  let r := transport_register_function (Some [0]) (Some cb) world_init in
  strlen [0] = 0%nat
  /\ fst r = 0
  /\ registry_count world_init = 0
  /\ registry_count (snd r) = 1
  /\ function_registry (snd r) <> function_registry world_init.
Proof.
  cbv zeta. repeat split; try reflexivity. discriminate.
Qed.

(** ** Admission of calls *)

(** C3.  While a call is pending, [transport_call] returns a negative
    code at once and changes nothing: no byte reaches the link layer and
    the pending queue and the call counter stay as they are. *)
Theorem transport_call_rejected_while_pending :
  forall (w : world) (q : list (list Z)) (name args : option (list Z))
         (args_len : Z) (outs : call_outs) (rx_progress : nat),
    pending_queue w = Some q ->
    exists rc : Z,
      rc < 0
      /\ (name <> None -> rc = -3)
      /\ transport_call name args args_len outs rx_progress w = ((rc, outs), w).
Proof.
  intros w q name args args_len outs rx_progress Hq.
  unfold transport_call, transport_call_send.
  destruct name as [name|].
  - exists (-3). split; [lia|]. split; [reflexivity|].
    unfold bind at 1. unfold bind at 1. unfold get at 1.
    rewrite Hq. reflexivity.
  - exists (-1). split; [lia|]. split; [congruence | reflexivity].
Qed.

Lemma transport_call_rejected_while_pending_witness :
  exists rc : Z,
    rc < 0
    /\ (Some [0x73; 0] <> None -> rc = -3)
    /\ transport_call (Some [0x73; 0]) None 0 (mk_outs None 0 0) 1
         (set_pending_queue (Some []) world_init)
       = ((rc, mk_outs None 0 0), set_pending_queue (Some []) world_init).
Proof.
  apply (transport_call_rejected_while_pending
           (set_pending_queue (Some []) world_init) []).
  reflexivity.
Defined.

(** ** The pending state at the returns of [transport_call] *)

Lemma link_send_frame_pending (p : option (list Z)) (len : Z) (w : world) :
  pending_queue (snd (link_send_frame p len w)) = pending_queue w.
Proof.
  link_send_frame_paths w p len.
Qed.

Lemma pvPortMalloc_pending (w : world) :
  pending_queue (snd (pvPortMalloc w)) = pending_queue w.
Proof. unfold pvPortMalloc. now destruct (heap w). Qed.

(** Every early return of the first part leaves no call pending, when
    none was pending at entry. *)
Lemma transport_call_send_early (name args : option (list Z)) (args_len : Z)
    (w w1 : world) (rc : Z) :
  pending_queue w = None ->
  transport_call_send name args args_len w = (inl rc, w1) ->
  pending_queue w1 = None.
Proof.
  intros Hq. unfold transport_call_send.
  destruct name as [name|]; [|intros [= <- <-]; exact Hq].
  unfold bind at 1. unfold get at 1. rewrite Hq. cbn [is_null negb].
  unfold bind at 1.
  pose proof (pvPortMalloc_pending w) as Hp1.
  destruct (pvPortMalloc w) as [ok1 wa]. cbn [snd] in Hp1.
  destruct ok1; cbn [negb]; [|intros [= <- <-]; congruence].
  cbv beta iota delta [bind modify get ret clear_pending].
  set (wb := set_current_counter _ _).
  destruct (pvPortMalloc wb) as [ok2 wc].
  destruct ok2; cbn [negb]; [|intros [= <- <-]; reflexivity].
  destruct (link_send_frame _ _ wc) as [rc' wd].
  destruct (rc' =? 0); cbn [negb]; [discriminate|].
  intros [= <- <-]. reflexivity.
Qed.

(** The second part clears the pending state on every return except the
    one with code -8. *)
Lemma transport_call_wait_clears (outs outs' : call_outs) (w w' : world) (rc : Z) :
  transport_call_wait outs w = ((rc, outs'), w') ->
  rc <> -8 ->
  pending_queue w' = None.
Proof.
  unfold transport_call_wait, bind, xQueueReceive, clear_pending, modify, ret.
  destruct (pending_queue w) as [[|item q]|].
  - intros [= <- <- <-] _. reflexivity.
  - destruct (rd item 2 =? 0).
    + destruct (_ >? 0).
      * destruct (pvPortMalloc _) as [[] wa].
        -- intros [= <- <- <-] _. reflexivity.
        -- intros [= <- <- <-] H. contradiction.
      * intros [= <- <- <-] _. reflexivity.
    + intros [= <- <- <-] _. reflexivity.
  - intros [= <- <- <-] _. reflexivity.
Qed.

(** On every return of [transport_call] other than the one with code -8
    the pending state is IDLE again. *)
Lemma transport_call_clears_pending_otherwise
    (name args : option (list Z)) (args_len : Z) (outs : call_outs)
    (rx_progress : nat) (w : world) :
  pending_queue w = None ->
  fst (fst (transport_call name args args_len outs rx_progress w)) <> -8 ->
  pending_queue (snd (transport_call name args args_len outs rx_progress w)) = None.
Proof.
  intros Hq. unfold transport_call, bind.
  destruct (transport_call_send name args args_len w) as [[rc|[]] w1] eqn:Hsend.
  - intros _. unfold ret. cbn [snd].
    exact (transport_call_send_early _ _ _ _ _ _ Hq Hsend).
  - destruct (transport_receiver_task rx_progress w1) as [[] w2].
    destruct (transport_call_wait outs w2) as [[rc outs'] w3] eqn:Hwait.
    cbn [fst snd]. intros Hrc.
    exact (transport_call_wait_clears _ _ _ _ _ Hwait Hrc).
Qed.

(** C1 fails on the code.  When the allocation of the caller's copy of a
    delivered result fails, [transport_call] returns -8 with the pending
    queue still in place, and the next call is refused with -3. *)
Theorem transport_call_alloc_failure_keeps_pending :
  fst (call_sum w_alloc_failure) = (-8, mk_outs None 1 0)
  /\ pending_queue w_alloc_failure = None
  /\ pending_queue (snd (call_sum w_alloc_failure)) = Some []
  /\ fst (fst (call_sum (snd (call_sum w_alloc_failure)))) = -3.
Proof. vm_compute. repeat split. Qed.

(** * Further properties *)

(** ** The receive loop on arbitrary byte streams *)


Lemma uint16_range (z : Z) : 0 <= uint16 z < 65536.
Proof. unfold uint16. apply Z.mod_pos_bound. lia. Qed.

Lemma rx_step_inv (bs : Z) (s : rx_locals) (byte : Z) :
  rx_inv bs s ->
  match rx_step bs s byte with
  | Continue s' =>
      rx_inv bs s' /\ length (l_buffer s') = length (l_buffer s)
  | Return0 out_len buffer =>
      0 <= out_len <= bs /\ out_len < 65536 /\ buffer = l_buffer s
  end.
Proof.
  destruct s as [st len idx hdr crc buf]. unfold rx_inv. cbn [l_length l_hdr l_state l_buffer].
  intros (Hlen & Hhdr & Hstop).
  destruct st; cbn [rx_step].
  - destruct (byte =? LINK_START_BYTE); cbn [l_length l_hdr l_state l_buffer];
      rewrite ?length_insert; repeat split; try lia; try discriminate.
  - cbn [l_length l_hdr l_state l_buffer]. rewrite length_insert.
    pose proof (uint16_range byte). repeat split; try lia; discriminate.
  - cbn [l_length l_hdr l_state l_buffer]. rewrite length_insert.
    pose proof (uint16_range (Z.lor len (Z.shiftl (uint16 byte) 8))).
    repeat split; try lia; discriminate.
  - destruct (negb (crc8_calc hdr 3 =? byte)); cbn [l_length l_hdr l_state l_buffer];
      repeat split; try lia; discriminate.
  - destruct (byte =? LINK_DATA_START_BYTE); cbn [l_length l_hdr l_state l_buffer];
      repeat split; try lia; try discriminate.
    destruct (len =? 0); discriminate.
  - destruct (idx <? len); cbn [l_length l_hdr l_state l_buffer].
    + split.
      * repeat split; try lia.
        destruct (uint16 (idx + 1) >=? len); discriminate.
      * destruct (idx <? bs); [apply length_insert | reflexivity].
    + repeat split; try lia; discriminate.
  - destruct (Z.leb_spec len bs); cbn [andb].
    + destruct (crc =? byte); cbn [l_length l_hdr l_state l_buffer];
        repeat split; try lia; try discriminate.
    + cbn [l_length l_hdr l_state l_buffer]. repeat split; try lia; discriminate.
  - destruct (byte =? LINK_STOP_BYTE); cbn [l_length l_hdr l_state l_buffer].
    + specialize (Hstop eq_refl). repeat split; lia.
    + repeat split; try lia; discriminate.
Qed.

Lemma rx_loop_inv (bs : Z) (input : list Z) :
  forall s : rx_locals,
    rx_inv bs s ->
    match rx_loop bs s input with
    | RxFrame out_len buffer rest =>
        0 <= out_len <= bs /\ out_len < 65536
        /\ length buffer = length (l_buffer s)
        /\ exists consumed, input = consumed ++ rest /\ consumed <> []
    | RxFail s' =>
        rx_inv bs s' /\ length (l_buffer s') = length (l_buffer s)
    end.
Proof.
  induction input as [|byte input IH]; intros s Hinv; cbn [rx_loop].
  - split; [exact Hinv | reflexivity].
  - pose proof (rx_step_inv bs s byte Hinv) as Hstep.
    destruct (rx_step bs s byte) as [s'|out_len buffer].
    + destruct Hstep as [Hinv' Hlen'].
      specialize (IH s' Hinv').
      destruct (rx_loop bs s' input) as [out_len buffer rest|s''].
      * destruct IH as (H1 & H2 & H3 & consumed & -> & _).
        repeat split; try lia.
        exists (byte :: consumed). split; [reflexivity | discriminate].
      * destruct IH as [H1 H2]. split; [exact H1 | lia].
    + destruct Hstep as (H1 & H2 & ->).
      repeat split; try lia.
      exists [byte]. split; [reflexivity | discriminate].
Qed.

Lemma rx_init_inv (bs : Z) (buffer : list Z) : rx_inv bs (rx_init buffer).
Proof. unfold rx_inv, rx_init. cbn. repeat split; try lia. discriminate. Qed.

(** X1: whatever bytes arrive, [link_receive_frame] returns 0 or -2; a
    returned length is a 16-bit value within the buffer capacity, the
    buffer keeps its size, a failure leaves [*out_len] alone, and only
    the byte source changes, by losing a prefix. *)
Theorem link_receive_frame_bounds :
  forall (w : world) (buffer : list Z) (buffer_size out_len : Z),
    let r := link_receive_frame buffer buffer_size out_len w in
    let rc := fst (fst (fst r)) in
    let buffer' := snd (fst (fst r)) in
    let out_len' := snd (fst r) in
    length buffer' = length buffer
    /\ (rc = 0 /\ 0 <= out_len' <= buffer_size /\ out_len' < 65536
        \/ rc = -2 /\ out_len' = out_len)
    /\ snd r = set_uart_rx (uart_rx (snd r)) w
    /\ exists consumed, uart_rx w = consumed ++ uart_rx (snd r).
Proof.
  intros w buffer bs out_len. cbv zeta. unfold link_receive_frame.
  pose proof (rx_loop_inv bs (if s_uart_installed w then uart_rx w else [])
                (rx_init buffer) (rx_init_inv bs buffer)) as H.
  destruct (rx_loop bs (rx_init buffer) _) as [len buf rest|s] eqn:Hloop;
    cbn [fst snd].
  - destruct H as (H1 & H2 & H3 & consumed & Hin & _).
    split; [exact H3|]. split; [left; repeat split; lia|].
    split; [destruct w; reflexivity|].
    destruct (s_uart_installed w); cbn [uart_rx set_uart_rx].
    + exists consumed. destruct w; exact Hin.
    + destruct consumed; discriminate.
  - destruct H as [_ H]. split; [exact H|]. split; [right; split; reflexivity|].
    destruct (s_uart_installed w) eqn:Hi.
    + split; [destruct w; reflexivity|].
      exists (uart_rx w). destruct w; cbn. now rewrite app_nil_r.
    + split; [destruct w; reflexivity|]. exists []. reflexivity.
Qed.

(** ** Resynchronisation *)

(** While a start marker is awaited, every other byte is dropped. *)
Lemma rx_steps_noise (bs len idx crc : Z) (hdr buffer noise : list Z) :
  Forall (fun b => b <> LINK_START_BYTE) noise ->
  rx_steps bs (mk_rx ST_WAIT_START len idx hdr crc buffer) noise
  = Some (mk_rx ST_WAIT_START len idx hdr crc buffer).
Proof.
  induction 1 as [|b noise Hb _ IH]; [reflexivity|].
  cbn [rx_steps rx_step].
  destruct (Z.eqb_spec b LINK_START_BYTE); [contradiction | exact IH].
Qed.

(** A frame that fits, from any state that awaits a start marker. *)
Lemma rx_loop_frame_fits_from (bs len0 idx0 crc0 h0 h1 h2 : Z)
    (P buffer rest : list Z) :
  Z.of_nat (length P) <= 65535 ->
  Z.of_nat (length P) <= bs ->
  (length P <= length buffer)%nat ->
  rx_loop bs (mk_rx ST_WAIT_START len0 idx0 [h0; h1; h2] crc0 buffer)
    (build_frame P (Z.of_nat (length P)) ++ rest)
  = RxFrame (Z.of_nat (length P)) (P ++ drop (length P) buffer) rest.
Proof.
  intros HP Hbs Hbuf.
  rewrite build_frame_eq, <- app_assoc.
  rewrite (rx_loop_steps bs _ _ _ _
             (rx_steps_frame_body bs len0 idx0 crc0 h0 h1 h2 P buffer HP)).
  rewrite rx_loop_tail_accept by exact Hbs.
  now rewrite store_payload_fits.
Qed.

(** X2: line noise without a start marker, followed by a frame that fits:
    [link_receive_frame] returns exactly that frame's payload. *)
Theorem noise_then_frame_received :
  forall (w : world) (noise P buffer rest : list Z) (buffer_size out_len : Z),
    s_uart_installed w = true ->
    Forall (fun b => b <> LINK_START_BYTE) noise ->
    Z.of_nat (length P) <= 65535 ->
    Z.of_nat (length P) <= buffer_size ->
    (length P <= length buffer)%nat ->
    uart_rx w = noise ++ build_frame P (Z.of_nat (length P)) ++ rest ->
    link_receive_frame buffer buffer_size out_len w
    = ((0, P ++ drop (length P) buffer, Z.of_nat (length P)), set_uart_rx rest w).
Proof.
  intros w noise P buffer rest bs out_len Hinst Hnoise HP Hbs Hbuf Hin.
  unfold link_receive_frame. rewrite Hinst, Hin.
  unfold rx_init.
  rewrite (rx_loop_steps bs noise _ _ _
             (rx_steps_noise bs 0 0 0 [0; 0; 0] buffer noise Hnoise)).
  now rewrite rx_loop_frame_fits_from.
Qed.

Lemma noise_then_frame_received_witness :
  link_receive_frame [9; 9; 9; 9] 4 0
    (set_uart_rx ([0x00; 0xFE; 0xFB; 0x17] ++ build_frame [1; 2; 3] 3 ++ [7])
       world_init)
  = ((0, [1; 2; 3; 9], 3),
     set_uart_rx [7]
       (set_uart_rx ([0x00; 0xFE; 0xFB; 0x17] ++ build_frame [1; 2; 3] 3 ++ [7])
          world_init)).
Proof.
  apply (noise_then_frame_received _ [0x00; 0xFE; 0xFB; 0x17] [1; 2; 3]
           [9; 9; 9; 9] [7] 4 0).
  - reflexivity.
  - repeat constructor; discriminate.
  - simpl. lia.
  - simpl. lia.
  - simpl. lia.
  - reflexivity.
Defined.

(** ** Frames that fail validation *)

(** A header whose CRC byte is wrong, or whose data-start marker is
    wrong, is abandoned with the buffer untouched. *)
Lemma rx_steps_bad_header (bs lo hi c len0 idx0 crc0 h0 h1 h2 : Z) (buffer : list Z) :
  c <> crc8_calc [LINK_START_BYTE; lo; hi] 3 ->
  exists len idx crc,
    rx_steps bs (mk_rx ST_WAIT_START len0 idx0 [h0; h1; h2] crc0 buffer)
      [LINK_START_BYTE; lo; hi; c]
    = Some (mk_rx ST_WAIT_START len idx [LINK_START_BYTE; lo; hi] crc buffer).
Proof.
  intros Hc. do 3 eexists.
  cbn [rx_steps rx_step].
  change (LINK_START_BYTE =? LINK_START_BYTE) with true.
  cbn iota. cbn [rx_steps rx_step insert list_insert].
  destruct (Z.eqb_spec (crc8_calc [LINK_START_BYTE; lo; hi] 3) c) as [Heq|_];
    [congruence|].
  cbn [negb]. reflexivity.
Qed.

Lemma rx_steps_bad_data_start (bs lo hi x len0 idx0 crc0 h0 h1 h2 : Z)
    (buffer : list Z) :
  x <> LINK_DATA_START_BYTE ->
  exists len idx crc,
    rx_steps bs (mk_rx ST_WAIT_START len0 idx0 [h0; h1; h2] crc0 buffer)
      [LINK_START_BYTE; lo; hi; crc8_calc [LINK_START_BYTE; lo; hi] 3; x]
    = Some (mk_rx ST_WAIT_START len idx [LINK_START_BYTE; lo; hi] crc buffer).
Proof.
  intros Hx. do 3 eexists.
  cbn [rx_steps rx_step].
  change (LINK_START_BYTE =? LINK_START_BYTE) with true.
  cbn iota. cbn [rx_steps rx_step insert list_insert].
  rewrite Z.eqb_refl. cbn [negb rx_steps rx_step].
  destruct (Z.eqb_spec x LINK_DATA_START_BYTE); [contradiction|].
  reflexivity.
Qed.

(** X3: a candidate frame whose header CRC byte or data-start marker is
    wrong costs only its own bytes: the buffer is untouched and a
    well-formed frame that follows at once is received. *)
Theorem bad_header_then_frame_received :
  forall (lo hi c x : Z) (P buffer rest : list Z) (buffer_size : Z),
    Z.of_nat (length P) <= 65535 ->
    Z.of_nat (length P) <= buffer_size ->
    (length P <= length buffer)%nat ->
    let frame := build_frame P (Z.of_nat (length P)) in
    let good := RxFrame (Z.of_nat (length P)) (P ++ drop (length P) buffer) rest in
    (c <> crc8_calc [LINK_START_BYTE; lo; hi] 3 ->
     rx_loop buffer_size (rx_init buffer)
       ([LINK_START_BYTE; lo; hi; c] ++ frame ++ rest) = good)
    /\ (x <> LINK_DATA_START_BYTE ->
        rx_loop buffer_size (rx_init buffer)
          ([LINK_START_BYTE; lo; hi; crc8_calc [LINK_START_BYTE; lo; hi] 3; x]
             ++ frame ++ rest) = good).
Proof.
  intros lo hi c x P buffer rest bs HP Hbs Hbuf frame good. split.
  - intros Hc.
    destruct (rx_steps_bad_header bs lo hi c 0 0 0 0 0 0 buffer Hc)
      as (len & idx & crc & Hsteps).
    unfold rx_init. rewrite (rx_loop_steps bs _ _ _ _ Hsteps).
    now apply rx_loop_frame_fits_from.
  - intros Hx.
    destruct (rx_steps_bad_data_start bs lo hi x 0 0 0 0 0 0 buffer Hx)
      as (len & idx & crc & Hsteps).
    unfold rx_init. rewrite (rx_loop_steps bs _ _ _ _ Hsteps).
    now apply rx_loop_frame_fits_from.
Qed.

Lemma bad_header_then_frame_received_witness :
  rx_loop 4 (rx_init [9; 9; 9; 9])
    ([LINK_START_BYTE; 3; 0; 0] ++ build_frame [1; 2; 3] 3 ++ [7])
  = RxFrame 3 [1; 2; 3; 9] [7].
Proof.
  refine (proj1 (bad_header_then_frame_received 3 0 0 0 [1; 2; 3] [9; 9; 9; 9] [7] 4
                   _ _ _) _).
  - simpl. lia.
  - simpl. lia.
  - simpl. lia.
  - vm_compute. discriminate.
Defined.

(** ** What the CRC detects *)



Lemma crc8_shift_byte (x : Z) : is_byte (crc8_shift x).
Proof.
  unfold crc8_shift, uint8, is_byte.
  destruct (negb _); apply Z.mod_pos_bound; lia.
Qed.

Lemma crc8_round_byte (x : Z) : is_byte (crc8_round x).
Proof.
  unfold crc8_round. rewrite (for_loop_last 7). apply crc8_shift_byte.
Qed.

Lemma crc8_update_round (crc byte : Z) :
  crc8_update crc byte = crc8_round (uint8 (Z.lxor crc byte)).
Proof. reflexivity. Qed.

Lemma crc8_update_byte (crc byte : Z) : is_byte (crc8_update crc byte).
Proof. rewrite crc8_update_round. apply crc8_round_byte. Qed.

Lemma is_byte_In (b : Z) :
  is_byte b -> In b (map Z.of_nat (seq 0 256)).
Proof.
  intros Hb. apply in_map_iff. exists (Z.to_nat b).
  split; [unfold is_byte in Hb; lia|].
  apply in_seq. unfold is_byte in Hb. lia.
Qed.

(** One CRC round is one-to-one on bytes: checked on all 256 x 256 pairs. *)
Lemma crc8_round_inj (x y : Z) :
  is_byte x -> is_byte y -> crc8_round x = crc8_round y -> x = y.
Proof.
  intros Hx Hy Heq.
  assert (Hall : forallb (fun a =>
            forallb (fun b => (a =? b) || negb (crc8_round a =? crc8_round b))
              (map Z.of_nat (seq 0 256)))
            (map Z.of_nat (seq 0 256)) = true)
    by (vm_compute; reflexivity).
  rewrite forallb_forall in Hall.
  specialize (Hall x (is_byte_In x Hx)).
  rewrite forallb_forall in Hall.
  specialize (Hall y (is_byte_In y Hy)).
  apply orb_true_iff in Hall. destruct Hall as [H|H].
  - now apply Z.eqb_eq.
  - rewrite Heq, Z.eqb_refl in H. discriminate.
Qed.

Lemma lxor_byte (a b : Z) : is_byte a -> is_byte b -> is_byte (Z.lxor a b).
Proof.
  unfold is_byte. intros Ha Hb.
  assert (H0 : 0 <= Z.lxor a b) by (apply Z.lxor_nonneg; lia).
  split; [exact H0|].
  destruct (Z.eq_dec (Z.lxor a b) 0) as [->|Hne]; [lia|].
  change 256 with (2 ^ 8). apply Z.log2_lt_pow2; [lia|].
  eapply Z.le_lt_trans; [apply Z.log2_lxor; lia|].
  apply Z.max_lub_lt.
  - destruct (Z.eq_dec a 0) as [->|]; [reflexivity|].
    apply Z.log2_lt_pow2; [lia|]. change (2 ^ 8) with 256. lia.
  - destruct (Z.eq_dec b 0) as [->|]; [reflexivity|].
    apply Z.log2_lt_pow2; [lia|]. change (2 ^ 8) with 256. lia.
Qed.

Lemma crc8_update_inj (c1 b1 c2 b2 : Z) :
  is_byte c1 -> is_byte b1 -> is_byte c2 -> is_byte b2 ->
  crc8_update c1 b1 = crc8_update c2 b2 ->
  Z.lxor c1 b1 = Z.lxor c2 b2.
Proof.
  intros Hc1 Hb1 Hc2 Hb2. rewrite !crc8_update_round. intros H.
  pose proof (lxor_byte c1 b1 Hc1 Hb1) as H1.
  pose proof (lxor_byte c2 b2 Hc2 Hb2) as H2.
  apply crc8_round_inj in H.
  - unfold uint8 in H. unfold is_byte in *.
    rewrite !Z.mod_small in H by lia. exact H.
  - unfold uint8, is_byte. apply Z.mod_pos_bound. lia.
  - unfold uint8, is_byte. apply Z.mod_pos_bound. lia.
Qed.

Lemma fold_crc_byte (l : list Z) (c : Z) :
  is_byte c -> is_byte (fold_left crc8_update l c).
Proof.
  revert c. induction l as [|b l IH]; intros c Hc; [exact Hc|].
  cbn [fold_left]. apply IH, crc8_update_byte.
Qed.

(** Two different running CRCs stay different over the same bytes. *)
Lemma fold_crc_inj (l : list Z) :
  forall c1 c2 : Z,
    Forall is_byte l -> is_byte c1 -> is_byte c2 ->
    fold_left crc8_update l c1 = fold_left crc8_update l c2 -> c1 = c2.
Proof.
  induction l as [|b l IH]; intros c1 c2 Hl Hc1 Hc2 H; [exact H|].
  inversion Hl as [|? ? Hb Hl']; subst.
  cbn [fold_left] in H.
  apply IH in H; [|exact Hl'|apply crc8_update_byte|apply crc8_update_byte].
  apply crc8_update_inj in H; try assumption.
  apply (f_equal (fun z => Z.lxor z b)) in H.
  now rewrite !Z.lxor_assoc, !Z.lxor_nilpotent, !Z.lxor_0_r in H.
Qed.

(** Changing one byte of a string of bytes changes its CRC. *)
Lemma crc8_single_byte_change :
  forall (pre post : list Z) (b b' : Z),
    Forall is_byte pre -> Forall is_byte post ->
    is_byte b -> is_byte b' -> b <> b' ->
    crc8_calc (pre ++ b :: post) (length (pre ++ b :: post))
    <> crc8_calc (pre ++ b' :: post) (length (pre ++ b' :: post)).
Proof.
  intros pre post b b' Hpre Hpost Hb Hb' Hne.
  assert (H0 : is_byte 0) by (unfold is_byte; lia).
  pose proof (crc8_calc_fold (pre ++ b :: post) []) as H1.
  pose proof (crc8_calc_fold (pre ++ b' :: post) []) as H2.
  rewrite app_nil_r in H1, H2. rewrite H1, H2.
  rewrite !fold_left_app. cbn [fold_left].
  set (c0 := fold_left crc8_update pre 0).
  assert (Hc0 : is_byte c0) by now apply fold_crc_byte.
  intros H. apply fold_crc_inj in H;
    [|exact Hpost|apply crc8_update_byte|apply crc8_update_byte].
  apply crc8_update_inj in H; try assumption.
  apply Hne.
  apply (f_equal (Z.lxor c0)) in H.
  now rewrite <- !Z.lxor_assoc, !Z.lxor_nilpotent, !Z.lxor_0_l in H.
Qed.

(** X6: the CRCs of two strings of bytes that differ in exactly one
    position differ: no change of a single byte, and so no flip of a
    single bit, goes unnoticed. *)
Theorem crc8_detects_single_byte_change :
  forall (pre post : list Z) (b b' : Z),
    Forall is_byte pre -> Forall is_byte post ->
    is_byte b -> is_byte b' -> b <> b' ->
    crc8_calc (pre ++ b :: post) (length (pre ++ b :: post))
    <> crc8_calc (pre ++ b' :: post) (length (pre ++ b' :: post)).
Proof. exact crc8_single_byte_change. Qed.

Lemma crc8_detects_single_byte_change_witness :
  crc8_calc [0x31; 0x32; 0x33] 3 <> crc8_calc [0x31; 0x36; 0x33] 3.
Proof.
  apply (crc8_detects_single_byte_change [0x31] [0x33] 0x32 0x36).
  - constructor; [unfold is_byte; lia | constructor].
  - constructor; [unfold is_byte; lia | constructor].
  - unfold is_byte. lia.
  - unfold is_byte. lia.
  - lia.
Defined.

Lemma crc8_calc_byte (data : list Z) (n : nat) : is_byte (crc8_calc data n).
Proof.
  destruct n as [|n]; [unfold is_byte, crc8_calc; cbn [for_loop]; lia|].
  rewrite crc8_calc_step. apply crc8_update_byte.
Qed.

(** X7: every CRC the block routine returns is a byte, and a message
    followed by its own CRC has CRC 0. *)
Theorem crc8_residue_zero :
  forall (data : list Z) (n : nat),
    is_byte (crc8_calc data n)
    /\ crc8_calc (data ++ [crc8_calc data (length data)])
         (S (length data)) = 0.
Proof.
  intros data n. split; [apply crc8_calc_byte|].
  rewrite crc8_calc_step.
  pose proof (crc8_calc_fold data [crc8_calc data (length data)]) as H.
  rewrite H. unfold rd. rewrite lookup_app_r by lia.
  rewrite Nat.sub_diag. cbn [lookup list_lookup default from_option id].
  pose proof (crc8_calc_fold data []) as H'. rewrite app_nil_r in H'.
  rewrite H'. rewrite crc8_update_round, Z.lxor_nilpotent. reflexivity.
Qed.

(** ** Corrupted frames *)

Lemma uint8_byte (z : Z) : is_byte (uint8 z).
Proof. unfold uint8, is_byte. apply Z.mod_pos_bound. lia. Qed.

Lemma frame_body_bytes (P : list Z) :
  Forall is_byte P -> Forall is_byte (frame_body_of P).
Proof.
  intros HP. unfold frame_body_of, frame_header.
  repeat apply Forall_cons_2; try apply uint8_byte.
  - unfold is_byte, LINK_START_BYTE. lia.
  - apply (crc8_calc_byte _ 3).
  - unfold is_byte, LINK_DATA_START_BYTE. lia.
  - exact HP.
Qed.

(** The full-CRC byte that does not match, then the stop marker. *)
Lemma rx_steps_crc_mismatch (bs L idx crc c : Z) (hdr buffer : list Z) :
  c <> crc ->
  rx_steps bs (mk_rx ST_FULL_CRC L idx hdr crc buffer) [c; LINK_STOP_BYTE]
  = Some (mk_rx ST_WAIT_START L idx hdr crc buffer).
Proof.
  intros Hc. cbn [rx_steps rx_step].
  destruct (Z.eqb_spec crc c) as [Heq|_]; [congruence|].
  rewrite andb_false_r. reflexivity.
Qed.

(** The matching full-CRC byte, then a byte that is not the stop marker. *)
Lemma rx_steps_stop_mismatch (bs L idx crc x : Z) (hdr buffer : list Z) :
  L <= bs ->
  x <> LINK_STOP_BYTE ->
  rx_steps bs (mk_rx ST_FULL_CRC L idx hdr crc buffer) [crc; x]
  = Some (mk_rx ST_WAIT_START L idx hdr crc buffer).
Proof.
  intros HL Hx. cbn [rx_steps rx_step].
  destruct (Z.leb_spec L bs); [|lia].
  rewrite Z.eqb_refl. cbn [andb rx_steps rx_step].
  destruct (Z.eqb_spec x LINK_STOP_BYTE); [contradiction | reflexivity].
Qed.

(** Receiving a frame [Q] after the machine has run over [junk] and is
    back at the search for a start marker. *)
Lemma rx_loop_after_rejection (bs : Z) (junk Q buffer buffer' rest : list Z)
    (len idx crc h0 h1 h2 : Z) :
  rx_steps bs (rx_init buffer) junk
  = Some (mk_rx ST_WAIT_START len idx [h0; h1; h2] crc buffer') ->
  Z.of_nat (length Q) <= 65535 ->
  Z.of_nat (length Q) <= bs ->
  (length Q <= length buffer')%nat ->
  rx_loop bs (rx_init buffer) (junk ++ build_frame Q (Z.of_nat (length Q)) ++ rest)
  = RxFrame (Z.of_nat (length Q)) (Q ++ drop (length Q) buffer') rest.
Proof.
  intros Hjunk HQ Hbs Hbuf.
  rewrite (rx_loop_steps bs _ _ _ _ Hjunk).
  now apply rx_loop_frame_fits_from.
Qed.

(** The machine after a frame with a wrong full-CRC byte or a wrong stop
    marker. *)
Lemma rx_loop_bad_trailer :
  forall (P Q buffer rest : list Z) (c x buffer_size : Z),
    Z.of_nat (length P) <= 65535 ->
    Z.of_nat (length Q) <= 65535 ->
    Z.of_nat (length Q) <= buffer_size ->
    (length Q <= length buffer)%nat ->
    let body := frame_body_of P in
    let crc := fold_left crc8_update body 0 in
    let next := build_frame Q (Z.of_nat (length Q)) ++ rest in
    let good :=
      RxFrame (Z.of_nat (length Q))
        (Q ++ drop (length Q) (store_payload buffer_size 0 P buffer)) rest in
    (c <> crc ->
     rx_loop buffer_size (rx_init buffer)
       ((body ++ [c; LINK_STOP_BYTE]) ++ next) = good)
    /\ (x <> LINK_STOP_BYTE -> Z.of_nat (length P) <= buffer_size ->
        rx_loop buffer_size (rx_init buffer) ((body ++ [crc; x]) ++ next) = good).
Proof.
  intros P Q buffer rest c x bs HP HQ Hbs Hbuf body crc next good.
  pose proof (rx_steps_frame_body bs 0 0 0 0 0 0 P buffer HP) as Hbody.
  fold body crc in Hbody. unfold frame_header in Hbody.
  assert (Hlen : (length Q <= length (store_payload bs 0 P buffer))%nat)
    by now rewrite store_payload_length.
  split.
  - intros Hc. subst next good.
    eapply rx_loop_after_rejection; try eassumption.
    unfold rx_init. rewrite rx_steps_app, Hbody.
    now apply rx_steps_crc_mismatch.
  - intros Hx HPbs. subst next good.
    eapply rx_loop_after_rejection; try eassumption.
    unfold rx_init. rewrite rx_steps_app, Hbody.
    now apply rx_steps_stop_mismatch.
Qed.

(** X4: a frame whose full-CRC byte is wrong, or whose stop marker is
    wrong, is not returned; the machine resynchronises and returns the
    well-formed frame that follows.  The rejected payload has been
    stored in the buffer all the same. *)
Theorem bad_trailer_then_frame_received :
  forall (P Q buffer rest : list Z) (c x buffer_size : Z),
    Z.of_nat (length P) <= 65535 ->
    Z.of_nat (length Q) <= 65535 ->
    Z.of_nat (length Q) <= buffer_size ->
    (length Q <= length buffer)%nat ->
    let body := frame_body_of P in
    let crc := fold_left crc8_update body 0 in
    let next := build_frame Q (Z.of_nat (length Q)) ++ rest in
    let good :=
      RxFrame (Z.of_nat (length Q))
        (Q ++ drop (length Q) (store_payload buffer_size 0 P buffer)) rest in
    (c <> crc ->
     rx_loop buffer_size (rx_init buffer)
       ((body ++ [c; LINK_STOP_BYTE]) ++ next) = good)
    /\ (x <> LINK_STOP_BYTE -> Z.of_nat (length P) <= buffer_size ->
        rx_loop buffer_size (rx_init buffer) ((body ++ [crc; x]) ++ next) = good).
Proof. exact rx_loop_bad_trailer. Qed.

Lemma bad_trailer_then_frame_received_witness :
  rx_loop 4 (rx_init [9; 9; 9; 9])
    ((frame_body_of [1; 2; 3] ++ [0; LINK_STOP_BYTE]) ++ build_frame [5] 1 ++ [7])
  = RxFrame 1 [5; 2; 3; 9] [7].
Proof.
  refine (proj1 (bad_trailer_then_frame_received [1; 2; 3] [5] [9; 9; 9; 9] [7] 0 0 4
                   _ _ _ _) _).
  - simpl. lia.
  - simpl. lia.
  - simpl. lia.
  - simpl. lia.
  - vm_compute. discriminate.
Defined.

(** X5: a well-formed frame in which one payload byte was changed on the
    wire is not returned, and the well-formed frame that follows is. *)
Theorem corrupted_payload_byte_rejected :
  forall (pre post Q buffer rest : list Z) (b b' buffer_size : Z),
    let P := pre ++ b :: post in
    let P' := pre ++ b' :: post in
    Forall is_byte pre -> Forall is_byte post ->
    is_byte b -> is_byte b' -> b <> b' ->
    Z.of_nat (length P) <= 65535 ->
    Z.of_nat (length Q) <= 65535 ->
    Z.of_nat (length Q) <= buffer_size ->
    (length Q <= length buffer)%nat ->
    let corrupted := <[(5 + length pre)%nat := b']> (build_frame P (Z.of_nat (length P))) in
    rd corrupted (5 + length pre) = b'
    /\ length corrupted = length (build_frame P (Z.of_nat (length P)))
    /\ rx_loop buffer_size (rx_init buffer)
         (corrupted ++ build_frame Q (Z.of_nat (length Q)) ++ rest)
       = RxFrame (Z.of_nat (length Q))
           (Q ++ drop (length Q) (store_payload buffer_size 0 P' buffer)) rest.
Proof.
  intros pre post Q buffer rest b b' bs P P' Hpre Hpost Hb Hb' Hne HP HQ Hbs Hbuf
         corrupted.
  assert (HLP : length P' = length P)
    by (subst P P'; rewrite !length_app; reflexivity).
  set (crc := fold_left crc8_update (frame_body_of P) 0).
  assert (Hcorr : corrupted = frame_body_of P' ++ [crc; LINK_STOP_BYTE]).
  { subst corrupted. rewrite build_frame_eq. fold crc.
    unfold frame_body_of. rewrite HLP.
    set (L := Z.of_nat (length P)).
    set (H := frame_header L).
    change (H ++ [crc8_calc H 3; LINK_DATA_START_BYTE] ++ P)
      with ((H ++ [crc8_calc H 3; LINK_DATA_START_BYTE]) ++ P).
    change (H ++ [crc8_calc H 3; LINK_DATA_START_BYTE] ++ P')
      with ((H ++ [crc8_calc H 3; LINK_DATA_START_BYTE]) ++ P').
    set (H5 := H ++ [crc8_calc H 3; LINK_DATA_START_BYTE]).
    assert (HH5 : length H5 = 5%nat) by reflexivity.
    subst P P'.
    rewrite insert_app_l by (rewrite !length_app; cbn [length]; lia).
    f_equal.
    rewrite insert_app_r_alt by lia. f_equal.
    rewrite insert_app_r_alt by lia.
    replace (5 + length pre - length H5 - length pre)%nat with 0%nat by lia.
    reflexivity. }
  split; [|split].
  - subst corrupted. unfold rd.
    rewrite list_lookup_insert_eq; [reflexivity|].
    pose proof (build_frame_length P). subst P.
    rewrite length_app in *. cbn [length] in *. lia.
  - subst corrupted. apply length_insert.
  - rewrite Hcorr.
    pose proof (rx_loop_bad_trailer P' Q buffer rest crc 0 bs) as Hbad.
    rewrite HLP in Hbad. specialize (Hbad HP HQ Hbs Hbuf).
    cbv zeta in Hbad. apply (proj1 Hbad).
    subst crc. unfold frame_body_of. rewrite HLP.
    set (H := frame_header (Z.of_nat (length P))).
    subst P P'.
    pose proof (crc8_single_byte_change
                  (H ++ [crc8_calc H 3; LINK_DATA_START_BYTE] ++ pre) post b b')
      as Hdet.
    assert (HH : Forall is_byte (H ++ [crc8_calc H 3; LINK_DATA_START_BYTE] ++ pre)).
    { pose proof (frame_body_bytes pre Hpre) as Hfb.
      unfold frame_body_of, frame_header in Hfb.
      subst H. unfold frame_header.
      repeat apply Forall_cons_2; try apply uint8_byte.
      - unfold is_byte, LINK_START_BYTE. lia.
      - apply (crc8_calc_byte _ 3).
      - unfold is_byte, LINK_DATA_START_BYTE. lia.
      - exact Hpre. }
    specialize (Hdet HH Hpost Hb Hb' Hne).
    pose proof (crc8_calc_fold
                  ((H ++ [crc8_calc H 3; LINK_DATA_START_BYTE] ++ pre) ++ b :: post) [])
      as H1.
    pose proof (crc8_calc_fold
                  ((H ++ [crc8_calc H 3; LINK_DATA_START_BYTE] ++ pre) ++ b' :: post) [])
      as H2.
    rewrite app_nil_r in H1, H2. rewrite H1, H2 in Hdet.
    rewrite <- !app_assoc in Hdet. cbn [app] in Hdet.
    intros Heq. apply Hdet. subst H. unfold frame_header in *. cbn [app] in *.
    exact Heq.
Qed.

Lemma corrupted_payload_byte_witness :
  rx_loop 4 (rx_init [9; 9; 9; 9])
    (<[6%nat := 0x42]> (build_frame [1; 2; 3] 3) ++ build_frame [5] 1 ++ [7])
  = RxFrame 1 [5; 0x42; 3; 9] [7].
Proof.
  refine (proj2 (proj2 (corrupted_payload_byte_rejected [1] [3] [5] [9; 9; 9; 9] [7]
                          2 0x42 4 _ _ _ _ _ _ _ _ _))).
  - constructor; [unfold is_byte; lia | constructor].
  - constructor; [unfold is_byte; lia | constructor].
  - unfold is_byte. lia.
  - unfold is_byte. lia.
  - lia.
  - simpl. lia.
  - simpl. lia.
  - simpl. lia.
  - simpl. lia.
Defined.

(** ** The sender *)

(** X8: the wire format.  A frame for a payload of up to 65535 bytes has
    the payload's length plus 7 bytes: start marker, length in little
    endian, CRC of those three bytes, data-start marker, the payload,
    CRC of everything before it, stop marker. *)
Theorem frame_wire_format :
  forall (P : list Z),
    Z.of_nat (length P) <= 65535 ->
    let n := length P in
    let frame := build_frame P (Z.of_nat n) in
    length frame = (n + 7)%nat
    /\ rd frame 0 = LINK_START_BYTE
    /\ rd frame 1 + 256 * rd frame 2 = Z.of_nat n
    /\ is_byte (rd frame 1) /\ is_byte (rd frame 2)
    /\ rd frame 3 = crc8_calc frame 3
    /\ rd frame 4 = LINK_DATA_START_BYTE
    /\ take n (drop 5 frame) = P
    /\ rd frame (5 + n) = crc8_calc frame (5 + n)
    /\ rd frame (6 + n) = LINK_STOP_BYTE.
Proof.
  intros P HP n frame.
  assert (Hframe : frame = frame_body_of P
                     ++ [fold_left crc8_update (frame_body_of P) 0; LINK_STOP_BYTE])
    by apply build_frame_eq.
  set (L := Z.of_nat n) in *.
  set (lo := uint8 (Z.land L 0xFF)).
  set (hi := uint8 (Z.land (Z.shiftr L 8) 0xFF)).
  set (hc := crc8_calc [LINK_START_BYTE; lo; hi] 3).
  set (body := [LINK_START_BYTE; lo; hi; hc; LINK_DATA_START_BYTE] ++ P).
  assert (Hbody : frame_body_of P = body) by reflexivity.
  rewrite Hbody in Hframe.
  set (fc := fold_left crc8_update body 0) in *.
  assert (Hhc : crc8_calc ([LINK_START_BYTE; lo; hi]
                             ++ hc :: LINK_DATA_START_BYTE :: P ++ [fc; LINK_STOP_BYTE]) 3
                = hc).
  { rewrite (crc8_calc_fold [LINK_START_BYTE; lo; hi]).
    pose proof (crc8_calc_fold [LINK_START_BYTE; lo; hi] []) as H.
    rewrite app_nil_r in H. symmetry. exact H. }
  assert (Hfc : crc8_calc (body ++ [fc; LINK_STOP_BYTE]) (length body) = fc)
    by apply crc8_calc_fold.
  assert (Hlen : length body = (5 + n)%nat)
    by (subst body n; rewrite length_app; reflexivity).
  assert (Hlo : is_byte lo) by apply uint8_byte.
  assert (Hhi : is_byte hi) by apply uint8_byte.
  assert (Hle : lo + 256 * hi = L).
  { pose proof (length16_rebuild L ltac:(subst L n; lia)) as Hr.
    fold lo hi in Hr. unfold uint16 in Hr. unfold is_byte in *.
    rewrite (Z.mod_small lo), (Z.mod_small hi) in Hr by lia.
    rewrite lor_shift8 in Hr by lia.
    rewrite Z.mod_small in Hr by lia. exact Hr. }
  clearbody fc hc lo hi. rewrite Hframe. clear Hframe Hbody.
  split; [rewrite length_app, Hlen; cbn [length]; lia|].
  split; [reflexivity|].
  split; [exact Hle|].
  split; [exact Hlo|]. split; [exact Hhi|].
  split.
  { subst body. rewrite <- app_assoc. cbn [app] in *. rewrite Hhc. reflexivity. }
  split; [reflexivity|].
  split.
  { subst body. rewrite <- app_assoc. cbn [app skipn].
    subst n. apply take_app_length. }
  split.
  { rewrite <- Hlen, Hfc. rewrite rd_app_r by lia. now rewrite Nat.sub_diag. }
  rewrite rd_app_r by lia.
  replace (6 + n - length body)%nat with 1%nat by lia. reflexivity.
Qed.

Lemma frame_wire_format_witness :
  build_frame [1; 2; 3] 3
  = [0xFA; 3; 0; crc8_calc [0xFA; 3; 0] 3; 0xFB; 1; 2; 3;
     crc8_calc [0xFA; 3; 0; crc8_calc [0xFA; 3; 0] 3; 0xFB; 1; 2; 3] 8; 0xFE]
  /\ length (build_frame [1; 2; 3] 3) = 10%nat.
Proof.
  split; [vm_compute; reflexivity|].
  apply (frame_wire_format [1; 2; 3]). simpl. lia.
Defined.

(** The paths of [link_send_frame], one by one. *)
Lemma link_send_frame_cases :
  forall (payload : option (list Z)) (len : Z) (w : world),
    0 <= len <= 65535 ->
    let r := link_send_frame payload len w in
    fst r = (if is_null payload && (len >? 0) then -1
             else if negb (fst (pvPortMalloc w)) then -2
             else if negb (s_uart_installed w) then -3
             else 0)
    /\ uart_tx (snd r)
       = (if fst r =? 0
          then uart_tx w
                 ++ take (Z.to_nat (len + 7)) (build_frame (default [] payload) len)
          else uart_tx w)
    /\ heap (snd r) = (if fst r =? -1 then heap w else tail (heap w))
    /\ pending_queue (snd r) = pending_queue w
    /\ current_counter (snd r) = current_counter w
    /\ function_registry (snd r) = function_registry w
    /\ uart_rx (snd r) = uart_rx w.
Proof.
  intros payload len w Hlen. cbv zeta.
  unfold link_send_frame, physical_send, log, modify, get, ret, pvPortMalloc, bind.
  generalize (build_frame (default [] payload) len). intros frame.
  destruct w as [hp inst tx rx reg cnt pq rb rl tr].
  cbn [trace set_trace heap s_uart_installed uart_tx snd fst].
  destruct (is_null payload && (len >? 0)).
  - cbn. repeat split; reflexivity.
  - destruct hp as [|[] hp]; destruct inst;
      cbn [negb set_heap trace set_trace set_uart_tx heap s_uart_installed
           uart_tx uart_rx pending_queue current_counter function_registry
           fst snd tail];
      rewrite ?Z.eqb_refl;
      try (destruct (Z.eqb_spec (-1) (len + 7)) as [Heq|Hne]; [lia|]);
      cbn [fst snd Z.eqb Pos.eqb tail uart_tx heap pending_queue current_counter
           function_registry uart_rx];
      repeat split; reflexivity.
Qed.

(** X9: the four outcomes of [link_send_frame].  -1 for a NULL payload
    with a positive length, before anything is allocated; -2 when the
    frame buffer cannot be allocated; -3 when the UART does not take the
    frame; 0 otherwise.  Only on 0 do bytes reach the wire, and then
    exactly the frame; the transport state is never touched. *)
Theorem link_send_frame_outcomes :
  forall (payload : option (list Z)) (len : Z) (w : world),
    0 <= len <= 65535 ->
    let r := link_send_frame payload len w in
    fst r = (if is_null payload && (len >? 0) then -1
             else if negb (fst (pvPortMalloc w)) then -2
             else if negb (s_uart_installed w) then -3
             else 0)
    /\ uart_tx (snd r)
       = (if fst r =? 0
          then uart_tx w
                 ++ take (Z.to_nat (len + 7)) (build_frame (default [] payload) len)
          else uart_tx w)
    /\ heap (snd r) = (if fst r =? -1 then heap w else tail (heap w))
    /\ pending_queue (snd r) = pending_queue w
    /\ current_counter (snd r) = current_counter w
    /\ function_registry (snd r) = function_registry w
    /\ uart_rx (snd r) = uart_rx w.
Proof. exact link_send_frame_cases. Qed.

Lemma link_send_frame_outcomes_witness :
  fst (link_send_frame None 3 world_init) = -1
  /\ uart_tx (snd (link_send_frame None 3 world_init)) = [].
Proof.
  pose proof (link_send_frame_outcomes None 3 world_init ltac:(lia)) as H.
  cbv zeta in H. destruct H as (H1 & H2 & _).
  split; [exact H1|]. rewrite H2, H1. reflexivity.
Defined.

(** ** The call path *)

(** With nothing to receive, a turn of the receiver task changes
    nothing. *)
Lemma receiver_iteration_idle (w : world) :
  uart_rx w = [] -> transport_receiver_iteration w = (tt, w).
Proof.
  intros Hrx. destruct w as [hp inst tx rx reg cnt pq rb rl tr].
  cbn [uart_rx] in Hrx. subst rx.
  unfold transport_receiver_iteration, bind, get, link_receive_frame, modify, ret.
  cbn [rx_buffer rx_len uart_rx s_uart_installed].
  destruct inst; reflexivity.
Qed.

Lemma receiver_task_idle (n : nat) (w : world) :
  uart_rx w = [] -> transport_receiver_task n w = (tt, w).
Proof.
  intros Hrx. induction n as [|n IH]; [reflexivity|].
  cbn [transport_receiver_task]. unfold bind.
  now rewrite receiver_iteration_idle, IH.
Qed.

(** A send with the UART installed and memory available. *)
Lemma link_send_frame_world (P : list Z) (w : world) :
  s_uart_installed w = true ->
  heap w = [] ->
  link_send_frame (Some P) (Z.of_nat (length P)) w
  = (0, set_uart_tx (uart_tx w ++ build_frame P (Z.of_nat (length P)))
          (set_trace (trace w ++ [EvLinkSend (Some P) (Z.of_nat (length P))]) w)).
Proof.
  intros Hinst Hheap.
  assert (Htake : take (Z.to_nat (Z.of_nat (length P) + 7))
                    (build_frame P (Z.of_nat (length P)))
                  = build_frame P (Z.of_nat (length P))).
  { apply take_ge. pose proof (build_frame_length P). lia. }
  unfold link_send_frame. change (default [] (Some P)) with P.
  generalize dependent (build_frame P (Z.of_nat (length P))). intros frame Htake.
  generalize dependent (Z.of_nat (length P)). intros L Htake.
  unfold physical_send, log, modify, get, ret, pvPortMalloc, bind.
  destruct w as [hp inst tx rx reg cnt pq rb rl tr].
  cbn [heap s_uart_installed] in Hinst, Hheap. subst inst hp.
  cbn. rewrite Z.eqb_refl, Htake. reflexivity.
Qed.


Lemma transport_call_send_ok (w : world) (name a : list Z) :
  pending_queue w = None ->
  heap w = [] ->
  s_uart_installed w = true ->
  Z.of_nat (strlen name) < 256 ->
  Z.of_nat (3 + strlen name + length a) <= 65535 ->
  transport_call_send (Some name) (Some a) (Z.of_nat (length a)) w
  = (inr tt, after_request w name a).
Proof.
  intros Hq Hheap Hinst Hname Hsize.
  set (n := strlen name) in *.
  assert (Hnl : uint8 (Z.of_nat n) = Z.of_nat n)
    by (unfold uint8; apply Z.mod_small; lia).
  assert (Hargs : (if Z.of_nat (length a) >? 0
                   then take (Z.to_nat (Z.of_nat (length a))) a else [])
                  = a).
  { destruct a as [|x a]; [reflexivity|].
    replace (Z.of_nat (length (x :: a)) >? 0) with true
      by (symmetry; apply Z.gtb_lt; cbn [length]; lia).
    rewrite Nat2Z.id. apply firstn_all. }
  set (counter := uint8 (current_counter w + 1)).
  set (payload := MSG_TYPE_REQUEST :: counter :: c_string name ++ 0 :: a).
  assert (Hplen : length payload = (3 + n + length a)%nat).
  { subst payload. cbn [length]. rewrite length_app, c_string_length.
    cbn [length]. fold n. lia. }
  assert (Hpl : uint16 (2 + Z.of_nat n + 1 + Z.of_nat (length a))
                = Z.of_nat (length payload)).
  { unfold uint16. rewrite Z.mod_small by lia. lia. }
  unfold transport_call_send.
  unfold bind at 1. unfold get at 1. rewrite Hq. cbn [is_null negb].
  unfold bind at 1. unfold pvPortMalloc at 1. rewrite Hheap. cbn [negb].
  unfold bind at 1. unfold modify at 1.
  unfold bind at 1. unfold modify at 1.
  unfold bind at 1. unfold get at 1.
  unfold bind at 1. unfold pvPortMalloc at 1.
  cbn [heap set_current_counter set_pending_queue]. rewrite Hheap. cbn [negb].
  cbn [current_counter set_current_counter set_pending_queue].
  fold n. rewrite Hnl, Hargs, Hpl, !Nat2Z.id. fold counter.
  change ([MSG_TYPE_REQUEST; counter] ++ take n name ++ [0] ++ a) with payload.
  rewrite resize_all.
  unfold bind. rewrite link_send_frame_world by (destruct w; assumption).
  cbn [negb Z.eqb]. destruct w; reflexivity.
Qed.

Lemma uint16_uint8 (z : Z) : uint16 (uint8 z) = uint8 z.
Proof.
  unfold uint16. pose proof (uint8_byte z) as H. unfold is_byte in H.
  apply Z.mod_small. lia.
Qed.

(** The envelope's two length bytes decode to the length they encode. *)
Lemma envelope_length_decode (L : Z) :
  0 <= L <= 65535 ->
  uint16 (Z.lor (uint8 (Z.land L 0xFF))
                (Z.shiftl (uint8 (Z.land (Z.shiftr L 8) 0xFF)) 8)) = L.
Proof.
  intros HL. pose proof (length16_rebuild L HL) as H.
  now rewrite !uint16_uint8 in H.
Qed.


(** The dispatch of a Response that carries the pending counter. *)
Lemma receiver_dispatch_response (w : world) (q : list (list Z))
    (data tail : list Z) :
  rx_buffer w = MSG_TYPE_RESPONSE :: current_counter w :: data ++ tail ->
  rx_len w = Z.of_nat (2 + length data) ->
  rx_len w <= 65535 ->
  pending_queue w = Some q ->
  receiver_dispatch w
  = (tt, set_pending_queue (Some (xQueueSend q (envelope 0 data)))
           (snd (pvPortMalloc w)))
    \/ fst (pvPortMalloc w) = false
       /\ receiver_dispatch w = (tt, snd (pvPortMalloc w)).
Proof.
  intros Hbuf Hlen Hmax Hq.
  assert (Ht : rd (rx_buffer w) 0 = MSG_TYPE_RESPONSE) by now rewrite Hbuf.
  assert (Hc : rd (rx_buffer w) 1 = current_counter w) by now rewrite Hbuf.
  assert (Hd : drop 2 (rx_buffer w) = data ++ tail) by now rewrite Hbuf.
  assert (Hpl : uint16 (rx_len w - 2) = Z.of_nat (length data))
    by (unfold uint16; rewrite Z.mod_small; lia).
  unfold receiver_dispatch.
  cbv beta iota zeta delta [bind get ret].
  rewrite Ht.
  change (MSG_TYPE_RESPONSE =? MSG_TYPE_REQUEST) with false.
  change (MSG_TYPE_RESPONSE =? MSG_TYPE_RESPONSE) with true.
  change (MSG_TYPE_RESPONSE =? MSG_TYPE_ERROR) with false.
  cbv beta iota delta [orb andb].
  rewrite Hq, Hc, Z.eqb_refl, Hd, Hpl.
  destruct (Z.geb_spec (rx_len w) 2); [|lia].
  destruct (pvPortMalloc w) as [[] w1]; cbn [fst snd]; [left | right; auto].
  unfold modify. f_equal. f_equal. f_equal. f_equal.
  unfold envelope. f_equal.
  rewrite Nat2Z.id.
  destruct data as [|x data]; [reflexivity|].
  replace (Z.of_nat (length (x :: data)) >? 0) with true
    by (symmetry; apply Z.gtb_lt; cbn [length]; lia).
  apply take_app_length.
Qed.

(** The dispatch of an Error with its code byte that carries the
    pending counter. *)
Lemma receiver_dispatch_error (w : world) (q : list (list Z))
    (code : Z) (tail : list Z) :
  rx_buffer w = MSG_TYPE_ERROR :: current_counter w :: code :: tail ->
  rx_len w = 3 ->
  pending_queue w = Some q ->
  receiver_dispatch w
  = (tt, set_pending_queue (Some (xQueueSend q (envelope code [])))
           (snd (pvPortMalloc w)))
    \/ fst (pvPortMalloc w) = false
       /\ receiver_dispatch w = (tt, snd (pvPortMalloc w)).
Proof.
  intros Hbuf Hlen Hq.
  assert (Ht : rd (rx_buffer w) 0 = MSG_TYPE_ERROR) by now rewrite Hbuf.
  assert (Hc : rd (rx_buffer w) 1 = current_counter w) by now rewrite Hbuf.
  assert (He : rd (rx_buffer w) 2 = code) by now rewrite Hbuf.
  unfold receiver_dispatch.
  cbv beta iota zeta delta [bind get ret].
  rewrite Ht.
  change (MSG_TYPE_ERROR =? MSG_TYPE_REQUEST) with false.
  change (MSG_TYPE_ERROR =? MSG_TYPE_RESPONSE) with false.
  change (MSG_TYPE_ERROR =? MSG_TYPE_ERROR) with true.
  cbv beta iota delta [orb andb].
  rewrite Hq, Hc, Z.eqb_refl, He, Hlen.
  change (3 >=? 3) with true. cbv beta iota.
  destruct (pvPortMalloc w) as [[] w1]; cbn [fst snd]; [left | right; auto].
  reflexivity.
Qed.

(** The caller's side of a delivery. *)
Lemma transport_call_wait_delivered (w : world) (outs : call_outs)
    (err : Z) (data : list Z) (q : list (list Z)) :
  pending_queue w = Some (envelope err data :: q) ->
  Z.of_nat (length data) <= 65535 ->
  heap w = [] ->
  transport_call_wait outs w
  = ((0, if err =? 0
         then mk_outs (if Z.of_nat (length data) >? 0 then Some data else None)
                      (Z.of_nat (length data)) err
         else mk_outs None 0 err),
     set_pending_queue None w).
Proof.
  intros Hq Hlen Hheap.
  unfold transport_call_wait.
  unfold bind at 1. unfold xQueueReceive. rewrite Hq.
  change (rd (envelope err data) 2) with err.
  change (rd (envelope err data) 0)
    with (uint8 (Z.land (Z.of_nat (length data)) 0xFF)).
  change (rd (envelope err data) 1)
    with (uint8 (Z.land (Z.shiftr (Z.of_nat (length data)) 8) 0xFF)).
  rewrite envelope_length_decode by lia.
  change (drop 3 (envelope err data)) with data.
  destruct (err =? 0).
  - destruct (Z.of_nat (length data) >? 0).
    + unfold bind, pvPortMalloc, clear_pending, modify, ret.
      cbn [heap set_pending_queue]. rewrite Hheap.
      rewrite Nat2Z.id, firstn_all. destruct w; reflexivity.
    + unfold bind, clear_pending, modify, ret. destruct w; reflexivity.
  - unfold bind, clear_pending, modify, ret. destruct w; reflexivity.
Qed.

Lemma after_request_fields (w : world) (name a : list Z) :
  let w1 := after_request w name a in
  heap w1 = heap w /\ s_uart_installed w1 = s_uart_installed w
  /\ uart_rx w1 = uart_rx w /\ rx_buffer w1 = rx_buffer w
  /\ pending_queue w1 = Some []
  /\ current_counter w1 = uint8 (current_counter w + 1)
  /\ function_registry w1 = function_registry w.
Proof. destruct w. cbn. repeat split. Qed.

(** A call whose reply frame [msg] arrives during the wait and is turned
    by the dispatch into the envelope of [err] and [data]. *)
Lemma transport_call_replied (w : world) (name a msg data : list Z) (err : Z)
    (outs : call_outs) (n : nat) :
  pending_queue w = None ->
  heap w = [] ->
  s_uart_installed w = true ->
  length (rx_buffer w) = 256%nat ->
  Z.of_nat (strlen name) < 256 ->
  Z.of_nat (3 + strlen name + length a) <= 65535 ->
  2 <= Z.of_nat (length msg) <= 256 ->
  Z.of_nat (length data) <= 65535 ->
  uart_rx w = build_frame msg (Z.of_nat (length msg)) ->
  (let w2 := set_rx (msg ++ drop (length msg) (rx_buffer w))
               (Z.of_nat (length msg))
               (set_uart_rx [] (after_request w name a)) in
   receiver_dispatch w2
   = (tt, set_pending_queue (Some [envelope err data]) w2)) ->
  let r := transport_call (Some name) (Some a) (Z.of_nat (length a)) outs (S n) w in
  fst r = (0, if err =? 0
              then mk_outs (if Z.of_nat (length data) >? 0 then Some data else None)
                           (Z.of_nat (length data)) err
              else mk_outs None 0 err)
  /\ pending_queue (snd r) = None
  /\ current_counter (snd r) = uint8 (current_counter w + 1)
  /\ uart_rx (snd r) = [].
Proof.
  intros Hq Hheap Hinst Hbuf Hname Hsize Hmsg Hdata Hin Hdisp r.
  destruct (after_request_fields w name a)
    as (Hh1 & Hi1 & Hr1 & Hb1 & Hq1 & Hc1 & _).
  set (w1 := after_request w name a) in *.
  set (w2 := set_rx (msg ++ drop (length msg) (rx_buffer w))
               (Z.of_nat (length msg)) (set_uart_rx [] w1)) in *.
  cbv zeta in Hdisp.
  assert (Hit : transport_receiver_iteration w1
                = (tt, set_pending_queue (Some [envelope err data]) w2)).
  { rewrite (receiver_iteration_frame w1 msg []).
    - rewrite Hb1. exact Hdisp.
    - congruence.
    - congruence.
    - exact Hmsg.
    - rewrite Hr1, Hin. now rewrite app_nil_r. }
  set (w3 := set_pending_queue (Some [envelope err data]) w2) in *.
  assert (Hw3 : uart_rx w3 = [] /\ heap w3 = []
                /\ pending_queue w3 = Some [envelope err data]
                /\ current_counter w3 = uint8 (current_counter w + 1)).
  { subst w3 w2. destruct w1. cbn in *. repeat split; congruence. }
  destruct Hw3 as (Hr3 & Hh3 & Hq3 & Hc3).
  assert (Hcall : r = ((0, if err =? 0
                           then mk_outs (if Z.of_nat (length data) >? 0
                                         then Some data else None)
                                        (Z.of_nat (length data)) err
                           else mk_outs None 0 err),
                       set_pending_queue None w3)).
  { subst r. unfold transport_call. unfold bind at 1.
    rewrite transport_call_send_ok by assumption. fold w1.
    cbn [transport_receiver_task]. unfold bind.
    rewrite Hit, (receiver_task_idle n w3 Hr3).
    now rewrite (transport_call_wait_delivered w3 outs err data []). }
  rewrite Hcall. cbn [fst snd].
  split; [reflexivity|].
  destruct w3. cbn in *. repeat split; congruence.
Qed.

(** X10: a call answered by a Response with the call's counter returns 0
    with error code 0, the result length and, when there are result
    bytes, a copy of them; the pending state is cleared and the counter
    has advanced by one, modulo 256. *)
Theorem transport_call_response_delivered :
  forall (w : world) (name a data : list Z) (outs : call_outs) (n : nat),
    pending_queue w = None ->
    heap w = [] ->
    s_uart_installed w = true ->
    length (rx_buffer w) = 256%nat ->
    Z.of_nat (strlen name) < 256 ->
    Z.of_nat (3 + strlen name + length a) <= 65535 ->
    Z.of_nat (2 + length data) <= 256 ->
    let counter := uint8 (current_counter w + 1) in
    let reply := MSG_TYPE_RESPONSE :: counter :: data in
    uart_rx w = build_frame reply (Z.of_nat (length reply)) ->
    let r := transport_call (Some name) (Some a) (Z.of_nat (length a)) outs (S n) w in
    fst r = (0, mk_outs (if Z.of_nat (length data) >? 0 then Some data else None)
                        (Z.of_nat (length data)) 0)
    /\ pending_queue (snd r) = None
    /\ current_counter (snd r) = counter
    /\ uart_rx (snd r) = [].
Proof.
  intros w name a data outs n Hq Hheap Hinst Hbuf Hname Hsize Hdata counter reply
         Hin.
  apply (transport_call_replied w name a reply data 0 outs n); try assumption.
  - subst reply. cbn [length]. lia.
  - lia.
  - cbv zeta.
    destruct (after_request_fields w name a)
      as (Hh1 & Hi1 & Hr1 & Hb1 & Hq1 & Hc1 & _).
    set (w1 := after_request w name a) in *.
    set (w2 := set_rx _ _ _).
    assert (Hw2 : rx_buffer w2 = reply ++ drop (length reply) (rx_buffer w)
                  /\ rx_len w2 = Z.of_nat (length reply)
                  /\ pending_queue w2 = Some []
                  /\ current_counter w2 = counter
                  /\ heap w2 = []).
    { subst w2.
      cbn [rx_buffer rx_len pending_queue current_counter heap set_rx set_uart_rx].
      repeat split; congruence. }
    destruct Hw2 as (Hb2 & Hl2 & Hq2 & Hc2 & Hh2).
    destruct (receiver_dispatch_response w2 [] data
                (drop (length reply) (rx_buffer w))) as [H|[H _]].
    + rewrite Hb2, Hc2. subst reply. reflexivity.
    + rewrite Hl2. subst reply. cbn [length]. lia.
    + rewrite Hl2. subst reply. cbn [length] in *. lia.
    + exact Hq2.
    + rewrite H. unfold pvPortMalloc. rewrite Hh2. reflexivity.
    + unfold pvPortMalloc in H. rewrite Hh2 in H. discriminate.
Qed.

(** X11: a call answered by an Error with the call's counter returns 0
    with the error code of the message, no result and result length 0. *)
Theorem transport_call_error_delivered :
  forall (w : world) (name a : list Z) (code : Z) (outs : call_outs) (n : nat),
    pending_queue w = None ->
    heap w = [] ->
    s_uart_installed w = true ->
    length (rx_buffer w) = 256%nat ->
    Z.of_nat (strlen name) < 256 ->
    Z.of_nat (3 + strlen name + length a) <= 65535 ->
    let counter := uint8 (current_counter w + 1) in
    uart_rx w = build_frame [MSG_TYPE_ERROR; counter; code] 3 ->
    let r := transport_call (Some name) (Some a) (Z.of_nat (length a)) outs (S n) w in
    fst r = (0, mk_outs None 0 code)
    /\ pending_queue (snd r) = None
    /\ current_counter (snd r) = counter
    /\ uart_rx (snd r) = [].
Proof.
  intros w name a code outs n Hq Hheap Hinst Hbuf Hname Hsize counter Hin.
  pose proof (transport_call_replied w name a [MSG_TYPE_ERROR; counter; code] []
                code outs n Hq Hheap Hinst Hbuf Hname Hsize) as H.
  cbn [length] in H.
  assert (Hr : (if code =? 0
                then mk_outs (if Z.of_nat 0 >? 0 then Some [] else None)
                             (Z.of_nat 0) code
                else mk_outs None 0 code) = mk_outs None 0 code).
  { destruct (Z.eqb_spec code 0) as [->|]; reflexivity. }
  rewrite Hr in H. apply H; try lia; try assumption.
  cbv zeta.
  destruct (after_request_fields w name a)
    as (Hh1 & Hi1 & Hr1 & Hb1 & Hq1 & Hc1 & _).
  set (w1 := after_request w name a) in *.
  set (w2 := set_rx _ _ _).
  assert (Hw2 : rx_buffer w2
                = [MSG_TYPE_ERROR; counter; code] ++ drop 3 (rx_buffer w)
                /\ rx_len w2 = 3
                /\ pending_queue w2 = Some []
                /\ current_counter w2 = counter
                /\ heap w2 = []).
  { subst w2.
    cbn [rx_buffer rx_len pending_queue current_counter heap set_rx set_uart_rx].
    repeat split; congruence. }
  destruct Hw2 as (Hb2 & Hl2 & Hq2 & Hc2 & Hh2).
  destruct (receiver_dispatch_error w2 [] code (drop 3 (rx_buffer w)))
    as [H'|[H' _]].
  - rewrite Hb2, Hc2. reflexivity.
  - exact Hl2.
  - exact Hq2.
  - rewrite H'. unfold pvPortMalloc. rewrite Hh2. reflexivity.
  - unfold pvPortMalloc in H'. rewrite Hh2 in H'. discriminate.
Qed.

Lemma transport_call_response_witness :
  let w := set_uart_rx (build_frame [MSG_TYPE_RESPONSE; 1; 0x33] 3) world_init in
  fst (transport_call (Some [0x73; 0x75; 0x6D; 0]) (Some [1; 0; 0; 0; 2; 0; 0; 0]) 8
         (mk_outs None 0 0) 1 w)
  = (0, mk_outs (Some [0x33]) 1 0).
Proof.
  intros w.
  refine (proj1 (transport_call_response_delivered w [0x73; 0x75; 0x6D; 0]
                   [1; 0; 0; 0; 2; 0; 0; 0] [0x33] (mk_outs None 0 0) 0
                   _ _ _ _ _ _ _ _)).
  - reflexivity.
  - reflexivity.
  - reflexivity.
  - reflexivity.
  - simpl. lia.
  - simpl. lia.
  - simpl. lia.
  - reflexivity.
Defined.

Lemma transport_call_error_witness :
  let w := set_uart_rx (build_frame [MSG_TYPE_ERROR; 1; 1] 3) world_init in
  fst (transport_call (Some [0x73; 0x75; 0x6D; 0]) (Some [1; 0; 0; 0; 2; 0; 0; 0]) 8
         (mk_outs None 0 0) 1 w)
  = (0, mk_outs None 0 1).
Proof.
  intros w.
  refine (proj1 (transport_call_error_delivered w [0x73; 0x75; 0x6D; 0]
                   [1; 0; 0; 0; 2; 0; 0; 0] 1 (mk_outs None 0 0) 0
                   _ _ _ _ _ _ _)).
  - reflexivity.
  - reflexivity.
  - reflexivity.
  - reflexivity.
  - simpl. lia.
  - simpl. lia.
  - reflexivity.
Defined.

(** X12: a call that gets no reply returns -7 and leaves the out
    parameters alone; the request frame [0x0B; counter; name; 0; args] is
    on the wire, the counter has advanced and no call is pending, so
    that the next call is admitted and uses the next counter. *)
Theorem transport_call_timeout_then_next :
  forall (w : world) (name a name2 a2 : list Z) (outs outs2 : call_outs)
         (n n2 : nat),
    pending_queue w = None ->
    heap w = [] ->
    s_uart_installed w = true ->
    uart_rx w = [] ->
    Z.of_nat (strlen name) < 256 ->
    Z.of_nat (3 + strlen name + length a) <= 65535 ->
    Z.of_nat (strlen name2) < 256 ->
    Z.of_nat (3 + strlen name2 + length a2) <= 65535 ->
    let counter := uint8 (current_counter w + 1) in
    let request := MSG_TYPE_REQUEST :: counter :: c_string name ++ 0 :: a in
    let r := transport_call (Some name) (Some a) (Z.of_nat (length a)) outs n w in
    let r2 := transport_call (Some name2) (Some a2) (Z.of_nat (length a2)) outs2 n2
                (snd r) in
    fst r = (-7, outs)
    /\ pending_queue (snd r) = None
    /\ current_counter (snd r) = counter
    /\ uart_tx (snd r)
       = uart_tx w ++ build_frame request (Z.of_nat (length request))
    /\ trace (snd r)
       = trace w ++ [EvLinkSend (Some request) (Z.of_nat (length request))]
    /\ fst r2 = (-7, outs2)
    /\ current_counter (snd r2) = uint8 (counter + 1).
Proof.
  assert (Hone : forall (w : world) (name a : list Z) (outs : call_outs) (n : nat),
             pending_queue w = None -> heap w = [] -> s_uart_installed w = true ->
             uart_rx w = [] ->
             Z.of_nat (strlen name) < 256 ->
             Z.of_nat (3 + strlen name + length a) <= 65535 ->
             transport_call (Some name) (Some a) (Z.of_nat (length a)) outs n w
             = ((-7, outs), set_pending_queue None (after_request w name a))).
  { intros w name a outs n Hq Hheap Hinst Hrx Hname Hsize.
    destruct (after_request_fields w name a)
      as (Hh1 & Hi1 & Hr1 & Hb1 & Hq1 & Hc1 & _).
    unfold transport_call. unfold bind at 1.
    rewrite transport_call_send_ok by assumption.
    unfold bind. rewrite receiver_task_idle by congruence.
    unfold transport_call_wait, bind, xQueueReceive. rewrite Hq1.
    reflexivity. }
  intros w name a name2 a2 outs outs2 n n2 Hq Hheap Hinst Hrx Hname Hsize
         Hname2 Hsize2 counter request r r2.
  assert (Hr : r = ((-7, outs), set_pending_queue None (after_request w name a)))
    by (apply Hone; assumption).
  set (w' := set_pending_queue None (after_request w name a)) in *.
  assert (Hw' : pending_queue w' = None /\ heap w' = [] /\ s_uart_installed w' = true
                /\ uart_rx w' = [] /\ current_counter w' = counter
                /\ uart_tx w' = uart_tx w
                     ++ build_frame request (Z.of_nat (length request))
                /\ trace w' = trace w
                     ++ [EvLinkSend (Some request) (Z.of_nat (length request))]).
  { subst w'. destruct w. cbn in *. repeat split; assumption. }
  destruct Hw' as (Hq' & Hh' & Hi' & Hr' & Hc' & Ht' & Htr').
  assert (Hr2 : r2 = ((-7, outs2),
                      set_pending_queue None (after_request w' name2 a2))).
  { subst r2. rewrite Hr. cbn [snd]. apply Hone; assumption. }
  rewrite Hr2, Hr. cbn [fst snd].
  repeat split; assumption.
Qed.

Lemma transport_call_timeout_witness :
  fst (transport_call (Some [0x73; 0x75; 0x6D; 0]) (Some [1; 2]) 2
         (mk_outs None 0 0) 3 world_init)
  = (-7, mk_outs None 0 0).
Proof.
  refine (proj1 (transport_call_timeout_then_next world_init [0x73; 0x75; 0x6D; 0]
                   [1; 2] [0x65; 0] [] (mk_outs None 0 0) (mk_outs None 0 0) 3 0
                   _ _ _ _ _ _ _ _)).
  - reflexivity.
  - reflexivity.
  - reflexivity.
  - reflexivity.
  - simpl. lia.
  - simpl. lia.
  - simpl. lia.
  - simpl. lia.
Defined.

(** ** The dispatch of requests *)

Lemma scan_name_no_nul (buf : list Z) (len : Z) :
  forall (fuel : nat) (k : Z),
    0 <= k <= len ->
    len <= 65535 ->
    (forall j, k <= j < len -> rd buf (Z.to_nat j) <> 0) ->
    (Z.to_nat (len - k) <= fuel)%nat ->
    scan_name fuel buf len k = len.
Proof.
  induction fuel as [|fuel IH]; intros k Hk Hlen Hnz Hfuel.
  - simpl. lia.
  - simpl. destruct (Z.ltb_spec k len) as [Hlt|Hge]; [|cbn [andb]; lia].
    destruct (Z.eqb_spec (rd buf (Z.to_nat k)) 0) as [Hk0|_].
    + exfalso. apply (Hnz k); [lia | exact Hk0].
    + cbn [andb negb].
      replace (uint16 (k + 1)) with (k + 1)
        by (unfold uint16; rewrite Z.mod_small; lia).
      apply IH; [lia | lia | | lia].
      intros j Hj. apply Hnz. lia.
Qed.

(** A Request without a NUL after its counter, the bare two bytes
    included, is answered with the internal error. *)
Lemma receiver_dispatch_malformed (w : world) (counter : Z) (body tail : list Z) :
  rx_buffer w = MSG_TYPE_REQUEST :: counter :: body ++ tail ->
  rx_len w = Z.of_nat (2 + length body) ->
  rx_len w <= 256 ->
  Forall (fun c => c <> 0) body ->
  receiver_dispatch w = send_error_response counter ERR_INTERNAL w.
Proof.
  intros Hbuf Hlen Hmax Hnz.
  unfold receiver_dispatch.
  cbv beta iota zeta delta [bind get ret find_function].
  replace (rd (rx_buffer w) 0) with MSG_TYPE_REQUEST by (now rewrite Hbuf).
  replace (rd (rx_buffer w) 1) with counter by (now rewrite Hbuf).
  change (MSG_TYPE_REQUEST =? MSG_TYPE_REQUEST) with true. cbv iota.
  destruct (Z.ltb_spec (rx_len w) 3); [reflexivity|].
  rewrite scan_name_no_nul; try lia.
  - destruct (Z.geb_spec (rx_len w) (rx_len w)); [reflexivity | lia].
  - intros j Hj. rewrite Hbuf.
    replace (Z.to_nat j) with (S (S (Z.to_nat (j - 2)))) by lia.
    rewrite !rd_cons_S, rd_app_l by lia.
    unfold rd. destruct (body !! Z.to_nat (j - 2)) as [c|] eqn:Hc.
    + simpl. eapply Forall_lookup_1 in Hnz; eauto.
    + apply lookup_ge_None in Hc. lia.
Qed.

(** X14: a Request frame that has no NUL after the counter byte gets the
    reply Error [0x21; counter; 0x02] and reaches no callback. *)
Theorem malformed_request_yields_internal_error :
  forall (w : world) (counter : Z) (body rest : list Z),
    let msg := MSG_TYPE_REQUEST :: counter :: body in
    s_uart_installed w = true ->
    length (rx_buffer w) = 256%nat ->
    Z.of_nat (length msg) <= 256 ->
    uart_rx w = build_frame msg (Z.of_nat (length msg)) ++ rest ->
    Forall (fun c => c <> 0) body ->
    let w' := snd (transport_receiver_iteration w) in
    trace w' = trace w ++ [EvLinkSend (Some [0x21; counter; 0x02]) 3]
    /\ (fst (pvPortMalloc w) = true ->
        uart_tx w' = uart_tx w ++ build_frame [0x21; counter; 0x02] 3)
    /\ pending_queue w' = pending_queue w.
Proof.
  intros w counter body rest msg Hinst Hbuf Hlen Hin Hnz w'.
  set (w1 := set_rx (msg ++ drop (length msg) (rx_buffer w))
               (Z.of_nat (length msg)) (set_uart_rx rest w)).
  assert (Hit : transport_receiver_iteration w = receiver_dispatch w1).
  { apply receiver_iteration_frame; auto. subst msg. cbn [length] in *. lia. }
  assert (Hdisp : receiver_dispatch w1
                  = send_error_response counter ERR_INTERNAL w1).
  { apply (receiver_dispatch_malformed w1 counter body
             (drop (length msg) (rx_buffer w))).
    - reflexivity.
    - subst w1 msg. cbn [rx_len set_rx length]. lia.
    - subst w1. cbn [rx_len set_rx]. exact Hlen.
    - exact Hnz. }
  assert (Hw' : w' = snd (link_send_frame
                            (Some [MSG_TYPE_ERROR; counter; ERR_INTERNAL]) 3 w1)).
  { subst w'. rewrite Hit, Hdisp. apply send_error_response_snd. }
  split; [|split].
  - rewrite Hw', link_send_frame_trace. reflexivity.
  - intros Hm. rewrite Hw'.
    assert (Hm1 : fst (pvPortMalloc w1) = true).
    { unfold pvPortMalloc in *. subst w1. cbn [heap set_rx set_uart_rx].
      destruct (heap w); [reflexivity | exact Hm]. }
    exact (proj2 (link_send_frame_ok [MSG_TYPE_ERROR; counter; ERR_INTERNAL]
                    w1 Hinst Hm1)).
  - rewrite Hw', link_send_frame_pending. reflexivity.
Qed.

Lemma malformed_request_witness :
  let msg := [MSG_TYPE_REQUEST; 9; 0x73; 0x75; 0x6D] in
  let w := set_uart_rx (build_frame msg 5) world_init in
  trace (snd (transport_receiver_iteration w))
  = [EvLinkSend (Some [0x21; 9; 0x02]) 3].
Proof.
  intros msg w.
  refine (proj1 (malformed_request_yields_internal_error w 9 [0x73; 0x75; 0x6D] []
                   _ _ _ _ _)).
  - reflexivity.
  - reflexivity.
  - simpl. lia.
  - vm_compute. reflexivity.
  - repeat constructor; discriminate.
Defined.



Lemma pvPortMalloc_trace (w : world) : trace (snd (pvPortMalloc w)) = trace w.
Proof. unfold pvPortMalloc. now destruct (heap w). Qed.





(** ** Frames the receiver task lets pass *)

(** Any frame of at most 256 bytes lands in [rx_buffer]; the dispatch
    runs when it has at least two bytes. *)
Lemma receiver_iteration_frame_any (w : world) (msg rest : list Z) :
  s_uart_installed w = true ->
  length (rx_buffer w) = 256%nat ->
  Z.of_nat (length msg) <= 256 ->
  uart_rx w = build_frame msg (Z.of_nat (length msg)) ++ rest ->
  let w1 := set_rx (msg ++ drop (length msg) (rx_buffer w))
              (Z.of_nat (length msg)) (set_uart_rx rest w) in
  transport_receiver_iteration w
  = if Z.of_nat (length msg) <? 2 then (tt, w1) else receiver_dispatch w1.
Proof.
  intros Hinst Hbuf Hlen Hin w1.
  unfold transport_receiver_iteration.
  unfold bind at 1. unfold get at 1.
  unfold bind at 1. unfold get at 1.
  unfold bind at 1.
  assert (Hrecv : link_receive_frame (rx_buffer w) 256 (rx_len w) w
                  = ((0, msg ++ drop (length msg) (rx_buffer w),
                      Z.of_nat (length msg)), set_uart_rx rest w)).
  { unfold link_receive_frame. rewrite Hinst, Hin.
    rewrite rx_loop_frame_fits by lia. reflexivity. }
  rewrite Hrecv. unfold bind at 1. unfold modify at 1.
  change (negb (0 =? 0)) with false. cbv iota.
  destruct (Z.of_nat (length msg) <? 2); reflexivity.
Qed.

Lemma receiver_dispatch_ignored (w : world) :
  rd (rx_buffer w) 0 <> MSG_TYPE_REQUEST ->
  (rd (rx_buffer w) 0 <> MSG_TYPE_RESPONSE /\ rd (rx_buffer w) 0 <> MSG_TYPE_ERROR)
  \/ pending_queue w = None ->
  receiver_dispatch w = (tt, w).
Proof.
  intros Hreq Hcase.
  unfold receiver_dispatch.
  cbv beta iota zeta delta [bind get ret].
  destruct (Z.eqb_spec (rd (rx_buffer w) 0) MSG_TYPE_REQUEST); [contradiction|].
  destruct Hcase as [[H1 H2]|Hq].
  - destruct (Z.eqb_spec (rd (rx_buffer w) 0) MSG_TYPE_RESPONSE); [contradiction|].
    destruct (Z.eqb_spec (rd (rx_buffer w) 0) MSG_TYPE_ERROR); [contradiction|].
    reflexivity.
  - destruct ((rd (rx_buffer w) 0 =? MSG_TYPE_RESPONSE)
              || (rd (rx_buffer w) 0 =? MSG_TYPE_ERROR)); [|reflexivity].
    rewrite Hq. reflexivity.
Qed.

(** X16: a frame shorter than two bytes, a frame of an unknown type, and a
    Response or Error that arrives while no call is pending are consumed
    and nothing else happens: nothing is sent, called or delivered. *)
Theorem frame_ignored :
  forall (w : world) (msg rest : list Z),
    s_uart_installed w = true ->
    length (rx_buffer w) = 256%nat ->
    Z.of_nat (length msg) <= 256 ->
    uart_rx w = build_frame msg (Z.of_nat (length msg)) ++ rest ->
    (length msg < 2)%nat
    \/ (rd msg 0 <> MSG_TYPE_REQUEST /\ rd msg 0 <> MSG_TYPE_RESPONSE
        /\ rd msg 0 <> MSG_TYPE_ERROR)
    \/ (rd msg 0 <> MSG_TYPE_REQUEST /\ pending_queue w = None) ->
    transport_receiver_iteration w
    = (tt, set_rx (msg ++ drop (length msg) (rx_buffer w))
             (Z.of_nat (length msg)) (set_uart_rx rest w)).
Proof.
  intros w msg rest Hinst Hbuf Hlen Hin Hcase.
  rewrite (receiver_iteration_frame_any w msg rest) by assumption.
  destruct (Z.ltb_spec (Z.of_nat (length msg)) 2) as [|Hge]; [reflexivity|].
  set (w1 := set_rx _ _ _).
  assert (Hrd : rd (rx_buffer w1) 0 = rd msg 0).
  { subst w1. cbn [rx_buffer set_rx]. apply rd_app_l. lia. }
  apply receiver_dispatch_ignored.
  - rewrite Hrd. destruct Hcase as [H|[H|H]]; [lia | apply H | apply H].
  - rewrite Hrd. destruct Hcase as [H|[(_ & H1 & H2)|[_ H]]]; [lia | left; auto|].
    right. exact H.
Qed.

Lemma frame_ignored_witness :
  let w := set_uart_rx (build_frame [0x16; 7; 1] 3 ++ [5]) world_init in
  transport_receiver_iteration w
  = (tt, set_rx ([0x16; 7; 1] ++ drop 3 (rx_buffer w)) 3 (set_uart_rx [5] w)).
Proof.
  intros w.
  apply (frame_ignored w [0x16; 7; 1] [5]).
  - reflexivity.
  - reflexivity.
  - simpl. lia.
  - reflexivity.
  - right. right. split; [vm_compute; discriminate | reflexivity].
Defined.

(** ** The one-slot queue *)

(** X17: when the slot of the pending queue is taken, a further Response
    or Error, even with the right counter, is not delivered: the queue
    keeps the envelope it has, and nothing is sent or called. *)
Theorem second_reply_dropped :
  forall (w : world) (first : list Z) (q : list (list Z)),
    pending_queue w = Some (first :: q) ->
    rd (rx_buffer w) 0 = MSG_TYPE_RESPONSE \/ rd (rx_buffer w) 0 = MSG_TYPE_ERROR ->
    let w' := snd (receiver_dispatch w) in
    pending_queue w' = Some (first :: q)
    /\ current_counter w' = current_counter w
    /\ trace w' = trace w
    /\ uart_tx w' = uart_tx w.
Proof.
  intros w first q Hq Htype. cbv zeta.
  unfold receiver_dispatch.
  cbv beta iota zeta delta [bind get ret].
  destruct Htype as [-> | ->].
  - change (MSG_TYPE_RESPONSE =? MSG_TYPE_REQUEST) with false.
    change (MSG_TYPE_RESPONSE =? MSG_TYPE_RESPONSE) with true.
    change (MSG_TYPE_RESPONSE =? MSG_TYPE_ERROR) with false.
    cbv beta iota delta [orb andb]. rewrite Hq.
    destruct (_ =? current_counter w); [|cbn; auto].
    unfold pvPortMalloc, modify.
    destruct w as [hp inst tx rx reg cnt pq rb rl tr]. cbn in *. subst pq.
    destruct hp as [|[] hp]; cbn; auto.
  - change (MSG_TYPE_ERROR =? MSG_TYPE_REQUEST) with false.
    change (MSG_TYPE_ERROR =? MSG_TYPE_RESPONSE) with false.
    change (MSG_TYPE_ERROR =? MSG_TYPE_ERROR) with true.
    cbv beta iota delta [orb andb]. rewrite Hq.
    destruct (_ =? current_counter w); [|cbn; auto].
    unfold pvPortMalloc, modify.
    destruct w as [hp inst tx rx reg cnt pq rb rl tr]. cbn in *. subst pq.
    destruct hp as [|[] hp]; cbn; auto.
Qed.

Lemma second_reply_dropped_witness :
  let w := set_rx ([MSG_TYPE_RESPONSE; 0; 9] ++ replicate 253 0) 3
             (set_pending_queue (Some [[1; 0; 0; 7]]) world_init) in
  pending_queue (snd (receiver_dispatch w)) = Some [[1; 0; 0; 7]].
Proof.
  intros w.
  refine (proj1 (second_reply_dropped w [1; 0; 0; 7] [] _ _)).
  - reflexivity.
  - left. reflexivity.
Defined.

(** ** Calls that fail before the wait *)

(** X13: the failures of [transport_call] before anything is sent.  When
    the queue cannot be created the call returns -4 and only the heap
    has changed; when the request buffer cannot be allocated it returns
    -5 with the counter advanced; for a name shorter than 256 bytes and
    a request that fits the 16-bit payload length (the block allocated
    for it then holds every byte the code writes), when the link layer
    fails (no memory for the frame, or no UART) it returns -6.  In all
    three cases no call stays pending, no byte is on the wire and the
    out-parameters are untouched. *)
Theorem transport_call_early_failures :
  forall (w : world) (name a : list Z) (outs : call_outs) (n : nat)
         (h : list bool),
    pending_queue w = None ->
    let r := transport_call (Some name) (Some a) (Z.of_nat (length a)) outs n w in
    (heap w = false :: h -> r = ((-4, outs), set_heap h w))
    /\ (heap w = true :: false :: h ->
        r = ((-5, outs),
             set_current_counter (uint8 (current_counter w + 1)) (set_heap h w)))
    /\ (Z.of_nat (strlen name) < 256 ->
        Z.of_nat (3 + strlen name + length a) <= 65535 ->
        heap w = true :: true :: false :: h
        \/ (heap w = [] /\ s_uart_installed w = false) ->
        fst r = (-6, outs)
        /\ pending_queue (snd r) = None
        /\ current_counter (snd r) = uint8 (current_counter w + 1)
        /\ uart_tx (snd r) = uart_tx w).
Proof.
  intros w name a outs n h Hq r.
  destruct w as [hp inst tx rx reg cnt pq rb rl tr].
  cbn [pending_queue heap s_uart_installed current_counter uart_tx] in *.
  subst pq r.
  unfold transport_call, transport_call_send.
  split; [|split].
  - intros ->. reflexivity.
  - intros ->. reflexivity.
  - intros _ _ Hcase.
    unfold bind, get, modify, ret, clear_pending.
    cbn [pending_queue is_null negb].
    assert (Hm1 : exists h1, pvPortMalloc
                    {| heap := hp; s_uart_installed := inst; uart_tx := tx;
                       uart_rx := rx; function_registry := reg;
                       current_counter := cnt; pending_queue := None;
                       rx_buffer := rb; rx_len := rl; trace := tr |}
                  = (true, {| heap := h1; s_uart_installed := inst; uart_tx := tx;
                       uart_rx := rx; function_registry := reg;
                       current_counter := cnt; pending_queue := None;
                       rx_buffer := rb; rx_len := rl; trace := tr |})
                  /\ (h1 = true :: false :: h \/ h1 = [] /\ inst = false)).
    { destruct Hcase as [-> | [-> ->]]; eexists; (split; [reflexivity|]); auto. }
    destruct Hm1 as (h1 & -> & Hh1).
    unfold set_current_counter, set_pending_queue.
    cbn [negb heap s_uart_installed uart_tx uart_rx function_registry
         current_counter pending_queue rx_buffer rx_len trace].
    assert (Hm2 : exists h2, pvPortMalloc
                    {| heap := h1; s_uart_installed := inst; uart_tx := tx;
                       uart_rx := rx; function_registry := reg;
                       current_counter := uint8 (cnt + 1); pending_queue := Some [];
                       rx_buffer := rb; rx_len := rl; trace := tr |}
                  = (true, {| heap := h2; s_uart_installed := inst; uart_tx := tx;
                       uart_rx := rx; function_registry := reg;
                       current_counter := uint8 (cnt + 1); pending_queue := Some [];
                       rx_buffer := rb; rx_len := rl; trace := tr |})
                  /\ (h2 = false :: h \/ h2 = [] /\ inst = false)).
    { destruct Hh1 as [-> | [-> ->]]; eexists; (split; [reflexivity|]); auto. }
    destruct Hm2 as (h2 & -> & Hh2). cbn [negb].
    match goal with
    | |- context [link_send_frame ?p ?l ?w1] =>
        pose proof (link_send_frame_cases p l w1) as Hsend;
        destruct (link_send_frame p l w1) as [rc wd]
    end.
    cbv zeta in Hsend. cbn [fst snd is_null andb heap s_uart_installed uart_tx
      pending_queue current_counter] in Hsend.
    destruct Hsend as (Hrc & Htx & _ & Hpq & Hcnt & _).
    { pose proof (uint16_range (2 + uint8 (Z.of_nat (strlen name)) + 1
                                + Z.of_nat (length a))). lia. }
    assert (Hrc0 : (rc =? 0) = false).
    { rewrite Hrc. unfold pvPortMalloc. cbn [heap].
      destruct Hh2 as [-> | [-> ->]]; reflexivity. }
    rewrite Hrc0 in *. cbn [negb fst snd pending_queue set_pending_queue
                             current_counter uart_tx].
    destruct wd. cbn in *. repeat split; congruence.
Qed.

Lemma transport_call_early_failures_witness :
  let w := mk_world [] false [] [] [] 0 None (replicate 256 0) 0 [] in
  fst (transport_call (Some [0x73; 0]) (Some [1]) 1 (mk_outs None 0 0) 0 w)
  = (-6, mk_outs None 0 0).
Proof.
  refine (proj1 (proj2 (proj2
            (transport_call_early_failures
               (mk_world [] false [] [] [] 0 None (replicate 256 0) 0 [])
               [0x73; 0] [1] (mk_outs None 0 0) 0 [] _)) _ _ _)).
  - reflexivity.
  - simpl. lia.
  - simpl. lia.
  - right. split; reflexivity.
Defined.

(** ** The registry *)



(** The paths of [transport_register_function], one by one. *)
Lemma register_cases :
  forall (w : world) (name : option (list Z)) (callback : option rpc_callback_t),
    let r := transport_register_function name callback w in
    (fst r = 0 /\ (exists nm cb,
                     name = Some nm /\ callback = Some cb
                     /\ registry_count w < MAX_FUNCTIONS
                     /\ function_registry (snd r)
                        = function_registry w
                            ++ [mk_entry (c_string nm ++ [0]) cb])
     \/ (fst r = -1 \/ fst r = -2 \/ fst r = -3)
        /\ function_registry (snd r) = function_registry w)
    /\ (registry_count w <= MAX_FUNCTIONS ->
        registry_count (snd r) <= MAX_FUNCTIONS)
    /\ pending_queue (snd r) = pending_queue w
    /\ current_counter (snd r) = current_counter w.
Proof.
  intros w name callback. cbv zeta.
  unfold transport_register_function.
  destruct name as [nm|]; [destruct callback as [cb|]|];
    try (cbn; split; [right; split; [left; reflexivity | reflexivity]|];
         split; [auto|]; split; reflexivity).
  unfold bind, get, ret, modify, pvPortMalloc.
  destruct (Z.geb_spec (registry_count w) MAX_FUNCTIONS) as [Hfull|Hroom].
  - cbn. split; [right; split; [right; left; reflexivity | reflexivity]|].
    split; [auto|]. split; reflexivity.
  - destruct w as [hp inst tx rx reg cnt pq rb rl tr].
    unfold registry_count in *. cbn [function_registry heap] in *.
    destruct hp as [|[] hp]; cbn [negb fst snd set_heap set_function_registry
                                   function_registry pending_queue current_counter
                                   heap].
    + split; [left; split; [reflexivity|]; exists nm, cb; auto|].
      split; [|split; reflexivity].
      intros _. rewrite length_app. cbn [length]. unfold MAX_FUNCTIONS in *. lia.
    + split; [left; split; [reflexivity|]; exists nm, cb; auto|].
      split; [|split; reflexivity].
      intros _. rewrite length_app. cbn [length]. unfold MAX_FUNCTIONS in *. lia.
    + split; [right; split; [right; right; reflexivity | reflexivity]|].
      split; [auto|]. split; reflexivity.
Qed.

(** X18: the outcomes of a registration.  It returns 0, -1, -2 or -3; on
    0 the registry has gained, in its next free slot, an entry with a
    NUL-terminated copy of the name and the callback; on every failure
    the registry is as before.  The number of entries never passes
    [MAX_FUNCTIONS], and the call state is never touched. *)
Theorem register_outcomes :
  forall (w : world) (name : option (list Z)) (callback : option rpc_callback_t),
    let r := transport_register_function name callback w in
    (fst r = 0 /\ (exists nm cb,
                     name = Some nm /\ callback = Some cb
                     /\ registry_count w < MAX_FUNCTIONS
                     /\ function_registry (snd r)
                        = function_registry w
                            ++ [mk_entry (c_string nm ++ [0]) cb])
     \/ (fst r = -1 \/ fst r = -2 \/ fst r = -3)
        /\ function_registry (snd r) = function_registry w)
    /\ (registry_count w <= MAX_FUNCTIONS ->
        registry_count (snd r) <= MAX_FUNCTIONS)
    /\ pending_queue (snd r) = pending_queue w
    /\ current_counter (snd r) = current_counter w.
Proof. exact register_cases. Qed.

Lemma register_outcomes_witness :
  let cb : rpc_callback_t := fun _ _ => (None, 0, 0) in
  let full := replicate 8 (mk_entry [0x61; 0] cb) in
  registry_count
    (snd (transport_register_function (Some [0x62; 0]) (Some cb)
            (set_function_registry full world_init)))
  <= MAX_FUNCTIONS.
Proof.
  intros cb full.
  refine (proj1 (proj2 (register_outcomes (set_function_registry full world_init)
                          (Some [0x62; 0]) (Some cb))) _).
  vm_compute. discriminate.
Defined.



(** ** The example functions *)

Lemma lor_shiftl_add (a b k : Z) :
  0 <= k -> 0 <= a < 2 ^ k -> 0 <= b -> Z.lor a (Z.shiftl b k) = a + b * 2 ^ k.
Proof.
  intros Hk Ha Hb.
  rewrite <- Z.add_nocarry_lor.
  - now rewrite Z.shiftl_mul_pow2.
  - apply Z.bits_inj'. intros n Hn.
    rewrite Z.land_spec, Z.bits_0.
    destruct (Z.lt_ge_cases n k) as [Hlt|Hge].
    + rewrite (Z.shiftl_spec_low b k n) by lia. apply andb_false_r.
    + replace (Z.testbit a n) with false; [reflexivity|].
      symmetry. destruct (Z.eq_dec a 0) as [->|Hne]; [apply Z.bits_0|].
      apply Z.bits_above_log2; [lia|].
      assert (Z.log2 a < k); [|lia].
      apply Z.log2_lt_pow2; lia.
Qed.

Lemma le32_decode (x : Z) (rest : list Z) :
  0 <= x < 4294967296 ->
  let p := le32 x ++ rest in
  uint32 (Z.lor (Z.lor (Z.lor (rd p 0) (Z.shiftl (rd p 1) 8))
                       (Z.shiftl (rd p 2) 16))
                (Z.shiftl (rd p 3) 24)) = x.
Proof.
  intros Hx. cbv zeta. unfold le32.
  change (rd _ 0) with (x mod 256).
  change (rd _ 1) with ((x / 256) mod 256).
  change (rd _ 2) with ((x / 65536) mod 256).
  change (rd _ 3) with ((x / 16777216) mod 256).
  pose proof (Z.mod_pos_bound x 256 ltac:(lia)) as H0.
  pose proof (Z.mod_pos_bound (x / 256) 256 ltac:(lia)) as H1.
  pose proof (Z.mod_pos_bound (x / 65536) 256 ltac:(lia)) as H2.
  pose proof (Z.mod_pos_bound (x / 16777216) 256 ltac:(lia)) as H3.
  rewrite (lor_shiftl_add (x mod 256) _ 8) by (change (2 ^ 8) with 256; lia).
  rewrite (lor_shiftl_add _ _ 16) by (change (2 ^ 8) with 256; change (2 ^ 16) with 65536; lia).
  rewrite (lor_shiftl_add _ _ 24)
    by (change (2 ^ 8) with 256; change (2 ^ 16) with 65536;
        change (2 ^ 24) with 16777216; lia).
  change (2 ^ 8) with 256. change (2 ^ 16) with 65536.
  change (2 ^ 24) with 16777216.
  unfold uint32.
  pose proof (Z.div_mod x 256 ltac:(lia)) as D0.
  pose proof (Z.div_mod (x / 256) 256 ltac:(lia)) as D1.
  pose proof (Z.div_mod (x / 65536) 256 ltac:(lia)) as D2.
  assert (E1 : x / 65536 = x / 256 / 256) by (rewrite Z.div_div by lia; reflexivity).
  assert (E2 : x / 16777216 = x / 65536 / 256)
    by (rewrite Z.div_div by lia; reflexivity).
  assert (H4 : x / 16777216 < 256) by (apply Z.div_lt_upper_bound; lia).
  assert (H5 : 0 <= x / 16777216) by (apply Z.div_pos; lia).
  rewrite (Z.mod_small (x / 16777216)) in * by lia.
  rewrite Z.mod_small; lia.
Qed.

Lemma take_length_app (l k : list Z) : take (length l) (l ++ k) = l.
Proof.
  induction l as [|x l IH]; cbn [length app]; [now destruct k|].
  cbn [take firstn]. now rewrite IH.
Qed.

(** X20: [rpc_echo] hands back its arguments.  With memory available the
    result is a buffer that holds the arguments and one NUL after them,
    with the length of the arguments and error code 0, and the dispatch
    answers with a Response that carries the arguments without the NUL;
    without memory the result is ERR_INTERNAL and the dispatch answers
    with that Error. *)
Theorem rpc_echo_reply :
  forall (w : world) (args : list Z) (counter : Z),
    let r := rpc_echo (Some args) (Z.of_nat (length args)) w in
    (fst (pvPortMalloc w) = true ->
     fst r = (Some (args ++ [0]), Z.of_nat (length args), 0)
     /\ (fst (pvPortMalloc (snd r)) = true ->
         trace (snd (answer counter (fst r) (snd r)))
         = trace w
             ++ [EvLinkSend (Some ([MSG_TYPE_RESPONSE; counter] ++ args))
                   (uint16 (2 + Z.of_nat (length args)))]))
    /\ (fst (pvPortMalloc w) = false ->
        fst r = (None, 0, ERR_INTERNAL)
        /\ trace (snd (answer counter (fst r) (snd r)))
           = trace w
               ++ [EvLinkSend (Some [MSG_TYPE_ERROR; counter; ERR_INTERNAL]) 3]).
Proof.
  intros w args counter. cbv zeta.
  unfold rpc_echo, bind.
  pose proof (pvPortMalloc_trace w) as Ht.
  destruct (pvPortMalloc w) as [[] w1]; cbn [fst snd negb] in *;
    (split; [|intros; discriminate]) || (split; [intros; discriminate|]);
    intros _.
  - assert (Hcopy : (if Z.of_nat (length args) >? 0
                     then take (Z.to_nat (Z.of_nat (length args))) args
                     else replicate (Z.to_nat (Z.of_nat (length args))) 0) = args).
    { destruct args as [|x args]; [reflexivity|].
      replace (Z.of_nat (length (x :: args)) >? 0) with true
        by (symmetry; apply Z.gtb_lt; cbn [length]; lia).
      rewrite Nat2Z.id. apply firstn_all. }
    rewrite Hcopy. unfold ret. cbn [fst snd].
    split; [reflexivity|]. intros Hm.
    unfold answer. change (negb (0 =? 0)) with false. cbv iota.
    unfold send_response. unfold bind at 1.
    pose proof (pvPortMalloc_trace w1) as Ht1.
    destruct (pvPortMalloc w1) as [ok w2]. cbn [fst snd] in *. subst ok.
    cbn [negb].
    assert (Hbody : (if Z.of_nat (length args) >? 0
                     then take (Z.to_nat (Z.of_nat (length args))) (args ++ [0])
                     else replicate (Z.to_nat (Z.of_nat (length args))) 0) = args).
    { destruct args as [|x args]; [reflexivity|].
      replace (Z.of_nat (length (x :: args)) >? 0) with true
        by (symmetry; apply Z.gtb_lt; cbn [length]; lia).
      rewrite Nat2Z.id. apply take_length_app. }
    rewrite Hbody. unfold bind, ret.
    match goal with
    | |- context [link_send_frame ?p ?l w2] =>
        pose proof (link_send_frame_trace p l w2) as H1;
        destruct (link_send_frame p l w2) as [rc w3]
    end.
    cbn [snd] in *. congruence.
  - unfold ret. cbn [fst snd]. split; [reflexivity|].
    unfold answer. change (negb (ERR_INTERNAL =? 0)) with true. cbv iota.
    rewrite send_error_response_snd, link_send_frame_trace. congruence.
Qed.

Lemma rpc_echo_reply_witness :
  fst (rpc_echo (Some [0x68; 0x69]) 2 world_init) = (Some [0x68; 0x69; 0], 2, 0).
Proof.
  refine (proj1 (proj1 (rpc_echo_reply world_init [0x68; 0x69] 0) _)).
  reflexivity.
Defined.

(** X21: [rpc_sum] adds modulo 2^32.  For two 32-bit values laid out
    lowest byte first it returns, with memory available, the characters
    [snprintf] produces for their sum modulo 2^32, one NUL after them,
    their number as the length and error code 0, and ERR_INTERNAL
    without memory.  Arguments that are absent or not exactly 8 bytes
    long give ERR_INTERNAL and nothing is allocated. *)
Theorem rpc_sum_outcomes :
  forall (snprintf_lu : Z -> list Z) (w : world),
    (forall a b : Z,
        0 <= a < 4294967296 -> 0 <= b < 4294967296 ->
        snprintf_lu ((a + b) mod 4294967296) <> [] ->
        rpc_sum snprintf_lu (Some (le32 a ++ le32 b)) 8 w
        = (if fst (pvPortMalloc w)
           then (Some (snprintf_lu ((a + b) mod 4294967296) ++ [0]),
                 uint16 (Z.of_nat (length (snprintf_lu ((a + b) mod 4294967296)))),
                 0)
           else (None, 0, ERR_INTERNAL),
           snd (pvPortMalloc w)))
    /\ (forall (args : option (list Z)) (args_len : Z),
           args_len <> 8 \/ args = None ->
           rpc_sum snprintf_lu args args_len w = ((None, 0, ERR_INTERNAL), w)).
Proof.
  intros snprintf_lu w. split.
  - intros a b Ha Hb Hne.
    unfold rpc_sum. change (negb (8 =? 8)) with false. cbv iota.
    pose proof (le32_decode a (le32 b) Ha) as Da. cbv zeta in Da.
    rewrite Da.
    assert (Db : uint32 (Z.lor (Z.lor (Z.lor (rd (le32 a ++ le32 b) 4)
                                         (Z.shiftl (rd (le32 a ++ le32 b) 5) 8))
                                  (Z.shiftl (rd (le32 a ++ le32 b) 6) 16))
                           (Z.shiftl (rd (le32 a ++ le32 b) 7) 24)) = b).
    { pose proof (le32_decode b [] Hb) as D. cbv zeta in D.
      rewrite <- D at 5. reflexivity. }
    rewrite Db. unfold uint32 at 1 2 3.
    destruct (snprintf_lu ((a + b) mod 4294967296)) as [|d ds] eqn:Hs;
      [congruence|].
    replace (Z.of_nat (length (d :: ds)) <=? 0) with false
      by (symmetry; apply Z.leb_gt; cbn [length]; lia).
    unfold bind, ret.
    destruct (pvPortMalloc w) as [[] w1]; reflexivity.
  - intros args args_len [Hlen | ->]; [|reflexivity].
    unfold rpc_sum. destruct args as [p|]; [|reflexivity].
    destruct (Z.eqb_spec args_len 8); [contradiction | reflexivity].
Qed.

Lemma rpc_sum_outcomes_witness :
  rpc_sum (fun _ => [0x33]) (Some [1; 0; 0; 0; 2; 0; 0; 0]) 8 world_init
  = ((Some [0x33; 0], 1, 0), world_init).
Proof.
  refine (proj1 (rpc_sum_outcomes (fun _ => [0x33]) world_init) 1 2 _ _ _).
  - lia.
  - lia.
  - discriminate.
Defined.
